(** * DocVision OCR dashboard: the browser client and the contracts it relies on

    A shallow embedding of [frontend/src/services/api.js] and of the [App]
    component of [frontend/src/App.jsx], followed by the properties the
    specification states about them.

    Conventions of the embedding.
    - JavaScript numbers are IEEE 754 binary64 values ([float]); strings are
      [string]; [null] and [undefined] are kept apart.
    - The scalar values that travel in JSON payloads are [JS.value]; a JSON
      object is a finite map from field names to such values, and reading a
      missing field gives [undefined].
    - React state is a record; every event handler is a function from the
      state before the event to the state after it. What a handler does to
      the outside (HTTP requests, timers, [alert]), and the addresses the
      page hands to the browser, are kept in the [World] around the
      component.
    - [new Date().toLocaleTimeString()] is an input of the handlers that
      print it.
    - Of the engine's built-ins, [Number::toString] and [toFixed] are written
      out on the exact value of the double; reading a number out of a string
      ([StringToNumber]) is a parameter of the one function that needs it.

    The Result Store, whose counts the dashboard shows, belongs to the
    processing core; it is modelled from the specification in [ResultStore]. *)

From Stdlib Require Import ZArith String Ascii List Bool Lia Floats.
From stdpp Require Import base option list gmap strings pretty sorting.

Set Warnings "-inexact-float".
Local Open Scope Z_scope.

(* ================================================================== *)
(** * The JavaScript values and built-ins the client uses *)
(* ================================================================== *)

Module JS.

Inductive value :=
| Undefined
| Null
| Bool (b : bool)
| Num (x : float)
| Str (s : string).

(** A JSON object with scalar fields. *)
Abbreviation object := (gmap string value).

(** [o.k]: a missing property reads as [undefined]. *)
Definition get (k : string) (o : object) : value := default Undefined (o !! k).

(** [o?.k] on a value that may be missing altogether. *)
Definition get_opt (k : string) (o : option object) : value :=
  match o with
  | Some o => get k o
  | None => Undefined
  end.

(** ** Number::toString, radix 10 *)

(** The number of decimal digits of [q >= 1], counted from [n = 1]. *)
Fixpoint exp_up (fuel : nat) (q n : Z) : Z :=
  match fuel with
  | O => n
  | S f => if q <? 10 then n else exp_up f (q / 10) (n + 1)
  end.

(** For [a < b]: minus the number of zeros after the point in [a/b],
    counted from [n = 0]. *)
Fixpoint exp_down (fuel : nat) (a b n : Z) : Z :=
  match fuel with
  | O => n
  | S f => if b <=? a * 10 then n else exp_down f (a * 10) b (n - 1)
  end.

(** The [n] with [10^(n-1) <= a/b < 10^n], for positive [a] and [b]. *)
Definition decimal_exponent (a b : Z) : Z :=
  if b <=? a then exp_up (S (Z.to_nat (Z.log2 (a / b)))) (a / b) 1
  else exp_down (S (Z.to_nat (Z.log2 b))) a b 0.

Definition zeros (n : Z) : string :=
  String.concat "" (replicate (Z.to_nat n) "0"%string).

(** The shortest decimal [s * 10^(n-k)], [s] of [k] digits, that reads back
    as the double [m * 2^e]; among several the closest, then the even one.
    Everything is scaled by [2^(e-2)], so that the double is [4m] and the
    midpoints to its neighbours are integers as well. *)
Section shortest.
Variables (m e : Z).
Let X := 4 * m.
Let ua := 2 ^ Z.max (e - 2) 0.
Let ub := 2 ^ Z.max (2 - e) 0.
Let LO := if (m =? 2 ^ 52) && (-1074 <? e) then 4 * m - 1 else 4 * m - 2.
Let HI := 4 * m + 2.
Let closed := Z.even m.
Let nx := decimal_exponent (X * ua) ub.

(** Does [s * 10^p] read back as the double? It does between the two
    midpoints, and on them when [m] is even. *)
Definition within (p s : Z) : bool :=
  let v := s * 10 ^ Z.max p 0 * ub in
  let lo := LO * ua * 10 ^ Z.max (- p) 0 in
  let hi := HI * ua * 10 ^ Z.max (- p) 0 in
  if closed then (lo <=? v) && (v <=? hi) else (lo <? v) && (v <? hi).

(** The [k]-digit candidates are the two integers around [x / 10^(nx-k)]. *)
Definition candidate (k : Z) : option Z :=
  let p := nx - k in
  let s := (X * ua * 10 ^ Z.max (- p) 0) / (ub * 10 ^ Z.max p 0) in
  match within p s, within p (s + 1) with
  | true, false => Some s
  | false, true => Some (s + 1)
  | false, false => None
  | true, true =>
      match 2 * X * ua * 10 ^ Z.max (- p) 0
            ?= (2 * s + 1) * 10 ^ Z.max p 0 * ub with
      | Lt => Some s
      | Gt => Some (s + 1)
      | Eq => Some (if Z.even s then s else s + 1)
      end
  end.

(** Seventeen digits always read back, so the search ends by [k = 17]. *)
Fixpoint search (fuel : nat) (k : Z) : Z * Z * Z :=
  match fuel with
  | O => (X * ua * 10 ^ Z.max (k - nx) 0 / (ub * 10 ^ Z.max (nx - k) 0), nx, k)
  | S f =>
      match candidate k with
      | Some s => if s =? 10 ^ k then (10 ^ (k - 1), nx + 1, k) else (s, nx, k)
      | None => search f (k + 1)
      end
  end.

Definition shortest : Z * Z * Z := search 17 1.
End shortest.

(** The digits [s], with the point or the exponent where [n] puts it. *)
Definition format_decimal (s n k : Z) : string :=
  let d := pretty s in
  if (k <=? n) && (n <=? 21) then d +:+ zeros (n - k)
  else if (0 <? n) && (n <=? 21) then
    substring 0 (Z.to_nat n) d +:+ "." +:+ substring (Z.to_nat n) (Z.to_nat (k - n)) d
  else if (-6 <? n) && (n <=? 0) then "0." +:+ zeros (- n) +:+ d
  else
    let ex := n - 1 in
    let sg := if ex <? 0 then "-" else "+" in
    if k =? 1 then d +:+ "e" +:+ sg +:+ pretty (Z.abs ex)
    else substring 0 1 d +:+ "." +:+ substring 1 (Z.to_nat (k - 1)) d
         +:+ "e" +:+ sg +:+ pretty (Z.abs ex).

Definition Number_toString (x : float) : string :=
  match Prim2SF x with
  | S754_nan => "NaN"
  | S754_zero _ => "0"
  | S754_infinity sg => if sg then "-Infinity" else "Infinity"
  | S754_finite sg m e =>
      let '(s, n, k) := shortest (Z.pos m) e in
      (if sg then "-" else "") +:+ format_decimal s n k
  end.

(** ** Number.prototype.toFixed *)

(** [round_scaled f m e]: the integer [n] for which [n / 10^f] is closest to
    [m * 2^e], the larger one of two. *)
Definition round_scaled (f : nat) (m e : Z) : Z :=
  if 0 <=? e then m * 2 ^ e * 10 ^ Z.of_nat f
  else (2 * m * 10 ^ Z.of_nat f + 2 ^ (- e)) / 2 ^ (1 - e).

(** [m * 2^e >= 10^21] *)
Definition huge (m e : Z) : bool :=
  if 0 <=? e then 10 ^ 21 <=? m * 2 ^ e else 10 ^ 21 * 2 ^ (- e) <=? m.

(** The last [f] decimal digits of [n], with leading zeros. *)
Fixpoint fraction_digits (f : nat) (n : Z) : string :=
  match f with
  | O => ""
  | S f' => fraction_digits f' (n / 10) +:+ pretty (n mod 10)
  end.

Definition toFixed (f : nat) (x : float) : string :=
  match Prim2SF x with
  | S754_finite sg m e =>
      if huge (Z.pos m) e then Number_toString x
      else
        let n := round_scaled f (Z.pos m) e in
        (if sg then "-" else "")
        +:+ pretty (n / 10 ^ Z.of_nat f)
        +:+ (if f is O then "" else "." +:+ fraction_digits f n)
  | S754_zero _ => "0" +:+ (if f is O then "" else "." +:+ fraction_digits f 0)
  | _ => Number_toString x
  end.

(** ** Conversions and operators *)

Definition ToBoolean (v : value) : bool :=
  match v with
  | Undefined | Null => false
  | Bool b => b
  | Num x => negb (PrimFloat.is_zero x || PrimFloat.is_nan x)
  | Str s => negb (String.eqb s "")
  end.

Definition ToString (v : value) : string :=
  match v with
  | Undefined => "undefined"
  | Null => "null"
  | Bool b => if b then "true" else "false"
  | Num x => Number_toString x
  | Str s => s
  end.

(** [ToNumber]; reading a number out of a string is left to the engine. *)
Definition ToNumber (StringToNumber : string → float) (v : value) : float :=
  match v with
  | Undefined => nan
  | Null => 0%float
  | Bool b => if b then 1%float else 0%float
  | Num x => x
  | Str s => StringToNumber s
  end.

(** [a || b] *)
Definition or (a b : value) : value := if ToBoolean a then a else b.

(** [v === s] for a string literal [s] *)
Definition is_string (s : string) (v : value) : bool :=
  match v with
  | Str t => String.eqb t s
  | _ => false
  end.

End JS.

(* ================================================================== *)
(** * services/api.js *)
(* ================================================================== *)

Module Api.
Import JS.

(** [window.location] *)
Record Location := { hostname : string; port : string }.

(** [File]: only its name is read. *)
Record File := { name : string }.

Definition frontend_dev_ports : list string :=
  ["5173"; "5174"; "5175"; "5176"; "5177"; "5178"; "5179"; "3000"; "3001"]%string.

Definition getBackendPort (location : Location) : string :=
  let currentPort := port location in
  let isFrontendDev := bool_decide (currentPort ∈ frontend_dev_ports) in
  if isFrontendDev then "8003"
  else ToString (JS.or (Str currentPort) (Str "8001")).

Definition BACKEND_PORT := getBackendPort.

Definition API_BASE_URL (location : Location) : string :=
  "http://" +:+ hostname location +:+ ":" +:+ BACKEND_PORT location +:+ "/api".

(** A call on the axios instance [api]; urls are relative to its base URL. *)
Inductive request :=
| Post (url : string) (formData : list (string * File))
| Get (url : string) (params : object)
| Delete (url : string).

Definition uploadFile (file : File) (type : string) : request :=
  let formData := [("file"%string, file)] in
  Post ("process/upload?doc_type=" +:+ type) formData.

Definition getStats : request := Get "stats" ∅.

(** The default value of the parameter replaces [undefined] only. *)
Definition getResults (docType : value) : request :=
  let docType := match docType with Undefined => Null | v => v end in
  let params : object :=
    if ToBoolean docType then {[ "doc_type"%string := docType ]} else ∅ in
  Get "results" params.

Definition getPreviewUrl (location : Location) (resultId : value) : string :=
  API_BASE_URL location +:+ "/results/" +:+ ToString resultId +:+ "/preview".

Definition getDownloadUrl (location : Location) (resultId : value) : string :=
  API_BASE_URL location +:+ "/results/" +:+ ToString resultId +:+ "/docx/download".

Definition deleteResult (resultId : value) : request :=
  Delete ("results/" +:+ ToString resultId).

(** [new WebSocket(url)] *)
Record WebSocket := { ws_url : string }.

(** The socket [createWebSocket] opens. Its [onmessage] hands every message,
    parsed, to the callback: see the event [Message] of the component. *)
Definition createWebSocket (location : Location) : WebSocket :=
  {| ws_url := "ws://" +:+ hostname location +:+ ":" +:+ BACKEND_PORT location
               +:+ "/ws/batches" |}.

End Api.

(* ================================================================== *)
(** * App.jsx: the [App] component *)
(* ================================================================== *)

Module App.
Import JS Api.

(** An entry of [results], as far as the component reads it. *)
Record Result := {
  id : value;
  file_name : value;
  doc_type : value;
  processed_at : value;
  structured_data : option object;
}.

(** ** React state *)

(** [uploadProgress] is a number; the component only ever stores the
    integers 0, 10, 100 and sums [prev + 5] in it, which are exact. *)
Record State := {
  activeTab : string;
  isUploading : bool;
  uploadProgress : Z;
  results : list Result;
  ocrLogs : list string;
  stats : object;
  filterType : option string;
  selectedResult : option Result;
  selectedDocType : string;
}.

(** The [useState] initial values. The initial [stats] also has an empty
    object [processed_count], which the component never reads. *)
Definition initial_state : State := {|
  activeTab := "dashboard";
  isUploading := false;
  uploadProgress := 0;
  results := [];
  ocrLogs := [];
  stats := {[ "total_files" := Num 0; "invoice" := Num 0;
              "contract" := Num 0; "crac" := Num 0 ]};
  filterType := None;
  selectedResult := None;
  selectedDocType := "invoice";
|}.

Definition setActiveTab (v : string) (s : State) : State :=
  {| activeTab := v; isUploading := isUploading s;
     uploadProgress := uploadProgress s; results := results s;
     ocrLogs := ocrLogs s; stats := stats s; filterType := filterType s;
     selectedResult := selectedResult s; selectedDocType := selectedDocType s |}.

Definition setIsUploading (v : bool) (s : State) : State :=
  {| activeTab := activeTab s; isUploading := v;
     uploadProgress := uploadProgress s; results := results s;
     ocrLogs := ocrLogs s; stats := stats s; filterType := filterType s;
     selectedResult := selectedResult s; selectedDocType := selectedDocType s |}.

(** The setters called with an updater, [setX(prev => ...)], take a function. *)
Definition setUploadProgress (f : Z → Z) (s : State) : State :=
  {| activeTab := activeTab s; isUploading := isUploading s;
     uploadProgress := f (uploadProgress s); results := results s;
     ocrLogs := ocrLogs s; stats := stats s; filterType := filterType s;
     selectedResult := selectedResult s; selectedDocType := selectedDocType s |}.

Definition setResults (v : list Result) (s : State) : State :=
  {| activeTab := activeTab s; isUploading := isUploading s;
     uploadProgress := uploadProgress s; results := v;
     ocrLogs := ocrLogs s; stats := stats s; filterType := filterType s;
     selectedResult := selectedResult s; selectedDocType := selectedDocType s |}.

Definition setOcrLogs (f : list string → list string) (s : State) : State :=
  {| activeTab := activeTab s; isUploading := isUploading s;
     uploadProgress := uploadProgress s; results := results s;
     ocrLogs := f (ocrLogs s); stats := stats s; filterType := filterType s;
     selectedResult := selectedResult s; selectedDocType := selectedDocType s |}.

Definition setStats (v : object) (s : State) : State :=
  {| activeTab := activeTab s; isUploading := isUploading s;
     uploadProgress := uploadProgress s; results := results s;
     ocrLogs := ocrLogs s; stats := v; filterType := filterType s;
     selectedResult := selectedResult s; selectedDocType := selectedDocType s |}.

Definition setFilterType (v : option string) (s : State) : State :=
  {| activeTab := activeTab s; isUploading := isUploading s;
     uploadProgress := uploadProgress s; results := results s;
     ocrLogs := ocrLogs s; stats := stats s; filterType := v;
     selectedResult := selectedResult s; selectedDocType := selectedDocType s |}.

Definition setSelectedResult (v : option Result) (s : State) : State :=
  {| activeTab := activeTab s; isUploading := isUploading s;
     uploadProgress := uploadProgress s; results := results s;
     ocrLogs := ocrLogs s; stats := stats s; filterType := filterType s;
     selectedResult := v; selectedDocType := selectedDocType s |}.

Definition setSelectedDocType (v : string) (s : State) : State :=
  {| activeTab := activeTab s; isUploading := isUploading s;
     uploadProgress := uploadProgress s; results := results s;
     ocrLogs := ocrLogs s; stats := stats s; filterType := filterType s;
     selectedResult := selectedResult s; selectedDocType := v |}.

(** ** The world around the component *)

(** What the component does to the outside: a call on the axios instance,
    [new WebSocket] and [ws.close()], [alert], and the two addresses it hands
    to the browser: the [src] of the preview [iframe], which the browser loads
    when the frame is put on the page or given another [src], and the [href]
    of the download link, which it opens in a new tab on a click. *)
Inductive effect :=
| Request (r : request)
| OpenSocket (ws : WebSocket)
| CloseSocket
| Alert (msg : string)
| Frame (src : string)
| OpenLink (href : string).

(** What a running [handleFileUpload] keeps in its closure: the chosen file
    and the [fetchResults] of the render it was called from, which reads that
    render's [filterType]. *)
Record Upload := { up_file : File; up_filter : option string }.

Record World := {
  state : State;
  (** is the timer set by [setInterval] still live *)
  progressInterval : bool;
  (** the [uploadFile] promise a [handleFileUpload] is waiting on *)
  awaiting : option Upload;
  (** the callback handed to [setTimeout], until it runs *)
  timeout : option Upload;
  (** everything done to the outside so far, oldest first *)
  effects : list effect;
}.

Definition update (f : State → State) (w : World) : World :=
  {| state := f (state w); progressInterval := progressInterval w;
     awaiting := awaiting w; timeout := timeout w; effects := effects w |}.

Definition emit (e : effect) (w : World) : World :=
  {| state := state w; progressInterval := progressInterval w;
     awaiting := awaiting w; timeout := timeout w;
     effects := effects w ++ [e] |}.

Definition setInterval (w : World) : World :=
  {| state := state w; progressInterval := true;
     awaiting := awaiting w; timeout := timeout w; effects := effects w |}.

Definition clearInterval (w : World) : World :=
  {| state := state w; progressInterval := false;
     awaiting := awaiting w; timeout := timeout w; effects := effects w |}.

Definition await (u : option Upload) (w : World) : World :=
  {| state := state w; progressInterval := progressInterval w;
     awaiting := u; timeout := timeout w; effects := effects w |}.

Definition setTimeout (u : option Upload) (w : World) : World :=
  {| state := state w; progressInterval := progressInterval w;
     awaiting := awaiting w; timeout := u; effects := effects w |}.

(** ** Error objects caught by [handleFileUpload] *)

Record HttpResponse := { data : option object }.
Record Error := { response : option HttpResponse; message : string }.

(** [err.response?.data?.detail] *)
Definition detail (err : Error) : value :=
  get_opt "detail" (response err ≫= data).

(** ** The websocket callback *)

Definition process_line (now : string) (log : object) : string :=
  "[" +:+ now +:+ "] PROCESS: "
  +:+ ToString (JS.or (get "current_file" log) (Str "Processing..."))
  +:+ " (" +:+ ToString (get "progress_pct" log) +:+ "%)".

Definition system_line (now : string) : string :=
  "[" +:+ now +:+ "] SYSTEM: Neural Connection Established".

(** The callback, as the change it makes to [ocrLogs]: the updater it hands
    to [setOcrLogs], and no change for a message of another type.
    [slice(0, 50)] keeps the first 50 entries. *)
Definition onmessage (now : string) (log : object) (prev : list string) : list string :=
  if is_string "batch_update" (get "type" log) then
    take 50 (process_line now log :: prev)
  else if is_string "connected" (get "type" log) then
    system_line now :: prev
  else prev.

(** ** Fetching *)

Definition filter_value (f : option string) : value :=
  match f with
  | Some s => Str s
  | None => Null
  end.

Definition fetchStats (w : World) : World := emit (Request getStats) w.

Definition fetchResults (filter : option string) (w : World) : World :=
  emit (Request (getResults (filter_value filter))) w.

(** The body of [useEffect]; it runs after the first render and after every
    render in which [filterType] has changed. *)
Definition effect_body (location : Location) (filter : option string) (w : World) : World :=
  let w := fetchStats w in
  let w := fetchResults filter w in
  emit (OpenSocket (createWebSocket location)) w.

(** ** handleFileUpload *)

Definition success_line (now : string) (file : File) (data : object) : string :=
  "[" +:+ now +:+ "] SUCCESS: " +:+ name file +:+ " processed in "
  +:+ ToString (get "processing_time_seconds" data) +:+ "s".

(** Up to the [await]. *)
Definition handleFileUpload (file : option File) (w : World) : World :=
  match file with
  | None => w
  | Some file =>
      let render := state w in
      let w := update (setIsUploading true) w in
      let w := update (setUploadProgress (λ _, 10)) w in
      let w := setInterval w in
      let w := emit (Request (uploadFile file (selectedDocType render))) w in
      await (Some {| up_file := file; up_filter := filterType render |}) w
  end.

(** The timer callback. *)
Definition tick (w : World) : World :=
  update (setUploadProgress (λ prev, if prev <? 90 then prev + 5 else prev)) w.

(** After the [await], when the promise is fulfilled with [resp]; [data] is
    [resp.data], the JSON object the server answers with. A response whose
    body is [null] is not among the events: the read of
    [processing_time_seconds] would throw after the progress is set to 100
    and the timer cleared, and the [catch] branch would run from there. *)
Definition upload_resolved (now : string) (data : object) (u : Upload) (w : World) : World :=
  let w := await None w in
  let w := update (setUploadProgress (λ _, 100)) w in
  let w := clearInterval w in
  let logMsg := success_line now (up_file u) data in
  let w := update (setOcrLogs (λ prev, logMsg :: prev)) w in
  setTimeout (Some u) w.

(** The [setTimeout] callback, one second later. *)
Definition upload_finished (u : Upload) (w : World) : World :=
  let w := setTimeout None w in
  let w := update (setIsUploading false) w in
  let w := update (setUploadProgress (λ _, 0)) w in
  let w := update (setActiveTab "results") w in
  let w := fetchResults (up_filter u) w in
  fetchStats w.

(** The [catch] branch. *)
Definition upload_rejected (err : Error) (w : World) : World :=
  let w := await None w in
  let w := clearInterval w in
  let w := update (setIsUploading false) w in
  emit (Alert ("Processing failed: "
               +:+ ToString (JS.or (detail err) (Str (message err))))) w.

(** ** The controls *)

Inductive tab := Dashboard | UploadTab | ResultsTab | LogsTab.

Definition tab_id (t : tab) : string :=
  match t with
  | Dashboard => "dashboard"
  | UploadTab => "upload"
  | ResultsTab => "results"
  | LogsTab => "logs"
  end.

(** The three buttons above the file input. *)
Inductive doc_button := INVOICE | CONTRACT | CRAC.

Definition doc_button_value (b : doc_button) : string :=
  match b with
  | INVOICE => "invoice"
  | CONTRACT => "contract"
  | CRAC => "crac"
  end.

(** The four [FilterTab]s. *)
Inductive filter_tab := All | Invoices | Contracts | CRACs.

Definition filter_tab_value (f : filter_tab) : option string :=
  match f with
  | All => None
  | Invoices => Some "invoice"
  | Contracts => Some "contract"
  | CRACs => Some "crac"
  end.

(** The upload widget (the buttons and the file input) is rendered on the
    upload tab while nothing is uploading. *)
Definition upload_widget_shown (s : State) : bool :=
  String.eqb (activeTab s) "upload" && negb (isUploading s).

Definition filter_tabs_shown (s : State) : bool :=
  String.eqb (activeTab s) "results".

(** ** PreviewModal *)

(** [toLowerCase] on the letters A to Z. The letters of other alphabets,
    which the built-in maps as well, are left as they are; none of them
    becomes a character of '.docx'. *)
Definition lower_ascii (c : ascii) : ascii :=
  let n := nat_of_ascii c in
  if (65 <=? n)%nat && (n <=? 90)%nat then ascii_of_nat (n + 32) else c.

Fixpoint toLowerCase (s : string) : string :=
  match s with
  | EmptyString => EmptyString
  | String c s' => String (lower_ascii c) (toLowerCase s')
  end.

(** [s.endsWith(t)]: one of the tails of [s] is [t]. *)
Fixpoint endsWith (s t : string) : bool :=
  String.eqb s t
  || match s with
     | EmptyString => false
     | String _ s' => endsWith s' t
     end.

(** [result.file_name.toLowerCase().endsWith('.docx')]; [None] is the
    TypeError of calling [toLowerCase] on what is not a string. *)
Definition isDocx (file_name : value) : option bool :=
  match file_name with
  | Str s => Some (endsWith (toLowerCase s) ".docx")
  | _ => None
  end.

(** The [src] of the [iframe] on the page in state [s]: the modal is rendered
    for the selected Result, and holds the frame unless [isDocx]. *)
Definition frame_src (location : Location) (s : State) : option string :=
  result ← selectedResult s;
  match isDocx (file_name result) with
  | Some false => Some (getPreviewUrl location (id result))
  | _ => None
  end.

(** The browser loads the frame of the new render, unless the page already
    had it with this [src]. *)
Definition load_frame (location : Location) (before : State) (w : World) : World :=
  match frame_src location (state w) with
  | Some src =>
      if decide (frame_src location before = Some src) then w else emit (Frame src) w
  | None => w
  end.

(** [setSelectedResult(res)] and the render of [PreviewModal] that follows.
    [None] when the modal throws: nothing catches it, React takes the whole
    component off the page, and there is no next state. *)
Definition view_result (location : Location) (res : Result) (w : World) : option World :=
  _ ← isDocx (file_name res);
  Some (load_frame location (state w) (update (setSelectedResult (Some res)) w)).

(** A click on the download link of the modal. *)
Definition download (location : Location) (result : Result) (w : World) : World :=
  emit (OpenLink (getDownloadUrl location (id result))) w.

(** ** Events *)

(** What can happen to the component: the clicks, the timers, and the
    answers of the server. The answers come parsed: [resp_data] is the JSON
    object in the body of a successful response, [err] the error a failed
    request is rejected with, [log] the object in a websocket message, [rs]
    the [results] array of a listing. [now] is the time of the day the
    handler reads, as text. *)
Inductive event :=
| ClickTab (t : tab)
| ClickDocType (b : doc_button)
| ClickFilter (f : filter_tab)
| ChooseFile (file : option File)
| Tick
| UploadResolved (now : string) (resp_data : object)
| UploadRejected (err : Error)
| TimeoutFired
| Message (now : string) (log : object)
| StatsLoaded (resp_data : object)
| ResultsLoaded (rs : list Result)
| ViewResult (i : nat)
| ClosePreview
| ClickDownload.

(** Setting [filterType] to the value it has changes nothing; otherwise the
    effect is cleaned up ([ws.close()]) and run again. *)
Definition change_filter (location : Location) (v : option string) (w : World) : World :=
  if decide (filterType (state w) = v) then w
  else
    let w := update (setFilterType v) w in
    let w := emit CloseSocket w in
    effect_body location v w.

(** One event; [None] when it cannot happen in [w]: the control is not on
    the page, or there is no such timer or promise; and [None] when the render
    it leads to throws, which ends the component: the worlds are those of the
    component while it is on the page. *)
Definition step (location : Location) (w : World) (ev : event) : option World :=
  match ev with
  | ClickTab t => Some (update (setActiveTab (tab_id t)) w)
  | ClickDocType b =>
      if upload_widget_shown (state w)
      then Some (update (setSelectedDocType (doc_button_value b)) w)
      else None
  | ClickFilter f =>
      if filter_tabs_shown (state w)
      then Some (change_filter location (filter_tab_value f) w)
      else None
  | ChooseFile file =>
      if upload_widget_shown (state w)
      then Some (handleFileUpload file w)
      else None
  | Tick => if progressInterval w then Some (tick w) else None
  | UploadResolved now resp_data =>
      u ← awaiting w; Some (upload_resolved now resp_data u w)
  | UploadRejected err =>
      _ ← awaiting w; Some (upload_rejected err w)
  | TimeoutFired =>
      u ← timeout w; Some (upload_finished u w)
  | Message now log => Some (update (setOcrLogs (onmessage now log)) w)
  | StatsLoaded resp_data => Some (update (setStats resp_data) w)
  | ResultsLoaded rs => Some (update (setResults rs) w)
  | ViewResult i =>
      if filter_tabs_shown (state w)
      then r ← results (state w) !! i; view_result location r w
      else None
  | ClosePreview =>
      if selectedResult (state w) is Some _
      then Some (update (setSelectedResult None) w)
      else None
  | ClickDownload =>
      r ← selectedResult (state w); Some (download location r w)
  end.

(** The world after the first render and its effect. *)
Definition init (location : Location) : World :=
  effect_body location None
    {| state := initial_state; progressInterval := false;
       awaiting := None; timeout := None; effects := [] |}.

Fixpoint run (location : Location) (w : World) (evs : list event) : option World :=
  match evs with
  | [] => Some w
  | ev :: evs => w' ← step location w ev; run location w' evs
  end.

(** The worlds the component can be in. *)
Inductive reachable (location : Location) : World → Prop :=
| reachable_init : reachable location (init location)
| reachable_step w ev w' :
    reachable location w → step location w ev = Some w' → reachable location w'.

(** ** Rendering *)

(** [x || y] on numbers *)
Definition or_num (x y : float) : float :=
  if ToBoolean (Num x) then x else y.

(** The [confidence] prop of a [ResultRow]. *)
Definition confidence_label (StringToNumber : string → float) (res : Result) : string :=
  let confidence := get_opt "confidence" (structured_data res) in
  toFixed 1 (or_num (ToNumber StringToNumber confidence * 100)%float 95%float) +:+ "%".

(** The values of the four [StatCard]s, in order. *)
Definition stat_cards (s : State) : list (string * value) :=
  [("Total Files", get "total_files" (stats s));
   ("Invoices", get "invoice" (stats s));
   ("Contracts", get "contract" (stats s));
   ("CRACs", get "crac" (stats s))].

(** ** What holds in every reachable world *)

Definition doc_types : list string := ["invoice"; "contract"; "crac"].

(** The three moments of an upload: none under way, the request sent and
    the timer ticking, the response in and the one-second timeout pending. *)
Inductive phase := Idle | Sending | Finishing.

Definition in_phase (w : World) (p : phase) : Prop :=
  match p with
  | Idle =>
      isUploading (state w) = false ∧ progressInterval w = false
      ∧ awaiting w = None ∧ timeout w = None
      ∧ 0 ≤ uploadProgress (state w) ≤ 90
  | Sending =>
      isUploading (state w) = true ∧ progressInterval w = true
      ∧ is_Some (awaiting w) ∧ timeout w = None
      ∧ 10 ≤ uploadProgress (state w) ≤ 90
      ∧ (5 | uploadProgress (state w))
  | Finishing =>
      isUploading (state w) = true ∧ progressInterval w = false
      ∧ awaiting w = None ∧ is_Some (timeout w)
      ∧ uploadProgress (state w) = 100
  end.

(** A filter value one of the four tabs gives. *)
Definition tab_filter (v : option string) : Prop :=
  ∃ f : filter_tab, v = filter_tab_value f.

(** The [params] of [getResults] for each tab. *)
Definition filter_params (f : filter_tab) : object :=
  match f with
  | All => ∅
  | Invoices => {[ "doc_type" := Str "invoice" ]}
  | Contracts => {[ "doc_type" := Str "contract" ]}
  | CRACs => {[ "doc_type" := Str "crac" ]}
  end.

Record invariant (w : World) : Prop := {
  inv_phase : ∃ p, in_phase w p;
  inv_doc_type : selectedDocType (state w) ∈ doc_types;
  inv_filter : tab_filter (filterType (state w));
  inv_closures :
    ∀ u, awaiting w = Some u ∨ timeout w = Some u → tab_filter (up_filter u);
  inv_uploads :
    ∀ url formData, Request (Post url formData) ∈ effects w →
      ∃ t, t ∈ doc_types ∧ url = "process/upload?doc_type=" +:+ t;
  inv_listings :
    ∀ params, Request (Get "results" params) ∈ effects w →
      ∃ f, params = filter_params f;
}.

(** [run], as long as the upload under way lasts: [isUploading] holds after
    every step. *)
Fixpoint run_uploading (location : Location) (w : World) (evs : list event) : option World :=
  match evs with
  | [] => Some w
  | ev :: evs =>
      w' ← step location w ev;
      if isUploading (state w') then run_uploading location w' evs else None
  end.


(** ** Sample sessions *)

(** The page served by the Vite dev server. *)
Definition dev_page : Location := {| hostname := "localhost"; port := "5173" |}.

(** Pick CRAC on the upload tab and choose a file. *)
Definition session_choose : list event :=
  [ClickTab UploadTab; ClickDocType CRAC;
   ChooseFile (Some {| name := "manifest.pdf" |})].

(** The same, with the timer firing twice while the request is out. *)
Definition session_sending : list event := session_choose ++ [Tick; Tick].

(** A rejection by the server, as FastAPI words it. *)
Definition sample_error : Error :=
  {| response := Some {| data := Some {[ "detail" := Str "Unsupported document type" ]} |};
     message := "Request failed with status code 400" |}.

(** Look at the contracts in the vault. *)
Definition session_filter : list event :=
  [ClickTab ResultsTab; ClickFilter Contracts].

End App.

(* ================================================================== *)
(** * The Result Store of the processing core *)
(* ================================================================== *)

Module ResultStore.

(** Modelled from the spec: the document types of section 3,
    [doc_type ∈ {invoice, contract, crac}]. The core's code is not among the
    client sources. *)
Inductive doc_type := invoice | contract | crac.

#[export] Instance doc_type_eq_dec : EqDecision doc_type.
Proof. solve_decision. Defined.

(** Modelled from the spec: a Result of section 3. [processed_at] is a
    timestamp; the artifact paths are kept as strings, the output one being
    unset after a degraded completion. *)
Record Result := {
  id : string;
  file_name : string;
  type : doc_type;
  processed_at : Z;
  raw_text : string;
  structured_data : gmap string JS.value;
  output_artifact_path : option string;
  source_artifact_path : string;
}.

(** Modelled from the spec: the store of section 4.3 holds Results keyed by
    id, and nothing else: no counter is kept beside them. *)
Abbreviation store := (gmap string Result).

(** Modelled from the spec: [save(result)] persists a Result keyed by id,
    exactly once; an id is written at most once. *)
Definition save (r : Result) (s : store) : store :=
  match s !! id r with
  | Some _ => s
  | None => <[id r := r]> s
  end.

(** Modelled from the spec: [get(id)] returns the Result or fails with
    [NotFound] (here [None]). *)
Definition get (i : string) (s : store) : option Result := s !! i.

(** Modelled from the spec: [delete(id)] removes the Result, idempotently. *)
Definition delete (i : string) (s : store) : store := base.delete i s.

(** Modelled from the spec: the order of [list], [processed_at] descending. *)
Definition newer (a b : Result) : Prop := processed_at b ≤ processed_at a.

#[export] Instance newer_dec : RelDecision newer.
Proof. intros a b. unfold newer. apply _. Defined.

(** Modelled from the spec: the stored Results. *)
Definition stored (s : store) : list Result := (map_to_list s).*2.

(** Modelled from the spec: the optional [doc_type] filter of [list]. *)
Definition matches (filter : option doc_type) (r : Result) : bool :=
  match filter with
  | Some t => bool_decide (type r = t)
  | None => true
  end.

(** Modelled from the spec: [list(filter: doc_type?)] returns Results
    ordered by [processed_at] descending. *)
Definition list_results (filter : option doc_type) (s : store) : list Result :=
  merge_sort newer (List.filter (matches filter) (stored s)).

(** Modelled from the spec: the answer of [aggregateCounts()], the total
    Result count and the per-[doc_type] counts. *)
Record Counts := { total : nat; by_type : doc_type → nat }.

(** Modelled from the spec: [aggregateCounts()], computed directly from the
    stored Results. *)
Definition aggregateCounts (s : store) : Counts :=
  {| total := length (stored s);
     by_type := λ t, length (List.filter (matches (Some t)) (stored s)) |}.

(** Modelled from the spec: a sequence of creates and deletes, from the
    empty store. *)
Inductive op := Create (r : Result) | Remove (i : string).

Definition apply (s : store) (o : op) : store :=
  match o with
  | Create r => save r s
  | Remove i => delete i s
  end.

Definition run (ops : list op) : store := foldl apply ∅ ops.

(** Modelled from the spec: three uploads of section 8's scenarios, the
    second one saved twice, and two deletes, one of an id that is not
    stored. *)
Definition sample_result (i f : string) (t : doc_type) (at_ : Z) : Result :=
  {| id := i; file_name := f; type := t; processed_at := at_;
     raw_text := "TOTAL 42.00"; structured_data := {[ "confidence" := JS.Num 0.875 ]};
     output_artifact_path := None; source_artifact_path := "uploads/" +:+ f |}.

Definition sample_ops : list op :=
  [Create (sample_result "r1" "invoice_42.pdf" invoice 100);
   Create (sample_result "r2" "lease.pdf" contract 200);
   Create (sample_result "r2" "lease.pdf" contract 200);
   Create (sample_result "r3" "manifest.pdf" crac 150);
   Remove "r2"; Remove "r9"].

End ResultStore.

(* ================================================================== *)
(** * App.jsx: what the page shows, and what the client has asked for *)
(* ================================================================== *)

Module View.
Import JS Api App.

(** ** The sockets and the requests in the effects *)

(** The websockets open after the effects [es]: [new WebSocket] opens one,
    [ws.close()] closes one. *)
Definition sockets_open (es : list effect) : Z :=
  foldl (λ n e, match e with
                | OpenSocket _ => n + 1
                | CloseSocket => n - 1
                | _ => n
                end) 0 es.

(** What was done to the sockets, in order. *)
Definition socket_effects (es : list effect) : list effect :=
  List.filter (λ e, match e with
                    | OpenSocket _ | CloseSocket => true
                    | _ => false
                    end) es.

(** The GET requests to [url] among the effects [es]. *)
Definition gets_to (url : string) (es : list effect) : nat :=
  length (List.filter (λ e, match e with
                            | Request (Get u _) => String.eqb u url
                            | _ => false
                            end) es).

(** ** The log viewer *)

(** [s.includes(t)] *)
Fixpoint includes (s t : string) : bool :=
  String.prefix t s
  || match s with
     | EmptyString => false
     | String _ s' => includes s' t
     end.

(** The colour of a line of the Neural Stream: green, saffron, blue, or the
    gray of the surrounding [div]. *)
Inductive log_style := Green | Saffron | Blue | Gray.

Definition log_style_of (log : string) : log_style :=
  if includes log "SUCCESS" then Green
  else if includes log "PROCESS" then Saffron
  else if includes log "SYSTEM" then Blue
  else Gray.

(** ** PreviewModal *)

(** [key.replace(/_/g, ' ')], the label of a structured field. *)
Fixpoint field_label (key : string) : string :=
  match key with
  | EmptyString => EmptyString
  | String c key' =>
      String (if Ascii.eqb c "_" then " "%char else c) (field_label key')
  end.

(** ** The progress ring *)

(** [283 - (283 * uploadProgress) / 100], the [strokeDashoffset] of the
    ring, on the number [uploadProgress] stands for. *)
Definition strokeDashoffset (uploadProgress : Z) : float :=
  (283 - (283 * PrimFloat.of_uint63 (Uint63.of_Z uploadProgress)) / 100)%float.

(** 0, 5, ..., 100 *)
Definition progress_steps : list Z := (λ k, 5 * k) <$> seqZ 0 21.

(** The offset is between 0 and 283, and 0 at 100 only. *)
Definition offset_in_range (p : Z) : bool :=
  PrimFloat.leb 0 (strokeDashoffset p)
  && PrimFloat.leb (strokeDashoffset p) 283
  && Bool.eqb (PrimFloat.eqb (strokeDashoffset p) 0) (p =? 100).

(** More progress, less offset. *)
Definition offset_antitone (p q : Z) : bool :=
  implb (p <=? q) (PrimFloat.leb (strokeDashoffset q) (strokeDashoffset p)).

(** ** More sample sessions *)

Definition sample_file : File := {| name := "manifest.pdf" |}.

(** On the upload tab, CRAC picked, no file chosen yet. *)
Definition session_upload_tab : list event :=
  [ClickTab UploadTab; ClickDocType CRAC].

(** A row of the vault. *)
Definition sample_row : Result :=
  {| id := Num 9; file_name := Str "Lease.DOCX"; doc_type := Str "contract";
     processed_at := Str "2025-01-15T10:21:00";
     structured_data := Some {[ "confidence" := Num 0.875 ]} |}.

(** The vault with one row listed. *)
Definition session_vault : list event :=
  [ClickTab ResultsTab; ResultsLoaded [sample_row]].

(** Another row, a scan. *)
Definition sample_scan : Result :=
  {| id := Num 12; file_name := Str "invoice-0042.pdf"; doc_type := Str "invoice";
     processed_at := Str "2025-01-15T10:24:30";
     structured_data := Some {[ "total_amount" := Num 1250 ]} |}.

(** A row as no listing of the backend should have it: no file name. *)
Definition sample_nameless : Result :=
  {| id := Num 13; file_name := Null; doc_type := Str "invoice";
     processed_at := Str "2025-01-15T10:25:00"; structured_data := None |}.

(** The vault with the three rows listed. *)
Definition session_rows : list event :=
  [ClickTab ResultsTab; ResultsLoaded [sample_row; sample_scan; sample_nameless]].


(** The filter is changed while the upload runs; then the upload succeeds. *)
Definition session_refilter : list event :=
  session_filter ++ [UploadResolved "10:15:07" ∅].

End View.

(* ================================================================== *)
(** * Proof tools *)
(* ================================================================== *)

(** Membership in a list of literals. *)
Ltac in_literals := repeat first [ apply list_elem_of_here | apply list_elem_of_further ].

Ltac not_in_literals :=
  let H := fresh in
  intros H; repeat (apply elem_of_cons in H as [H|H]; [discriminate H|]);
  by apply elem_of_nil in H.

(* ================================================================== *)
(** * Properties of the built-ins *)
(* ================================================================== *)

Module JSFacts.
Import JS.

Lemma or_truthy (a b : value) : ToBoolean a = true → JS.or a b = a.
Proof. unfold JS.or. by intros ->. Qed.

Lemma or_falsy (a b : value) : ToBoolean a = false → JS.or a b = b.
Proof. unfold JS.or. by intros ->. Qed.

Lemma nonempty_truthy (s : string) : s ≠ "" → ToBoolean (Str s) = true.
Proof. intros Hs. simpl. by destruct (String.eqb_spec s ""). Qed.

Lemma or_nonempty (s t : string) : s ≠ "" → ToString (JS.or (Str s) (Str t)) = s.
Proof. intros Hs. by rewrite or_truthy by by apply nonempty_truthy. Qed.


Lemma or_string (k s : string) (o : object) (d : value) :
  o !! k = Some (Str s) → s ≠ "" → JS.or (get k o) d = Str s.
Proof.
  intros H Hs. unfold get. rewrite H. simpl.
  by rewrite or_truthy by by apply nonempty_truthy.
Qed.

(** The printing of numbers on some doubles, among them the ones that
    are not decimal fractions and the ones that need an exponent. *)
Example Number_toString_samples :
  map Number_toString
    [40; 100; 4.25; 0.1; 0.1 + 0.2; 100 / 3; -2.5; 1e21; 1e-7; 0.000001;
     123456789012345680000; 9007199254740993; 5e-324; 1.7976931348623157e308;
     0 / 0; 1 / 0; -0]%float
  = ["40"; "100"; "4.25"; "0.1"; "0.30000000000000004"; "33.333333333333336";
     "-2.5"; "1e+21"; "1e-7"; "0.000001"; "123456789012345680000";
     "9007199254740992"; "5e-324"; "1.7976931348623157e+308";
     "NaN"; "Infinity"; "0"].
Proof. vm_compute. reflexivity. Qed.

Example toFixed_samples :
  map (toFixed 1) [95; 87.5; 0.07 * 100; 99.95; 0.25; 0.35; 0.04; -0.01; 1e21]%float
  = ["95.0"; "87.5"; "7.0"; "100.0"; "0.3"; "0.3"; "0.0"; "-0.0"; "1e+21"].
Proof. vm_compute. reflexivity. Qed.

End JSFacts.

(* ================================================================== *)
(** * Properties of api.js *)
(* ================================================================== *)

Module ApiFacts.
Import JS Api JSFacts.

Lemma getBackendPort_dev (l : Location) :
  port l ∈ frontend_dev_ports → getBackendPort l = "8003".
Proof.
  intros H. unfold getBackendPort. simpl.
  rewrite bool_decide_eq_true_2 by exact H. reflexivity.
Qed.

Lemma getBackendPort_other (l : Location) :
  port l ∉ frontend_dev_ports →
  getBackendPort l = if decide (port l = "") then "8001" else port l.
Proof.
  intros H. unfold getBackendPort. simpl.
  rewrite bool_decide_eq_false_2 by exact H.
  destruct (decide (port l = "")) as [->|Hne]; [reflexivity|].
  by apply or_nonempty.
Qed.

(** C8. [getBackendPort] answers "8003" on the frontend dev ports 5173 to
    5179, 3000 and 3001, otherwise the page's own port, and "8001" when the
    page has none; the API base URL and the websocket URL are both built
    from that one port. *)
Theorem backend_port_spec (l : Location) :
  (port l ∈ ["5173"; "5174"; "5175"; "5176"; "5177"; "5178"; "5179"; "3000"; "3001"]
   → getBackendPort l = "8003")
  ∧ (port l ∉ ["5173"; "5174"; "5175"; "5176"; "5177"; "5178"; "5179"; "3000"; "3001"]
     → port l ≠ "" → getBackendPort l = port l)
  ∧ (port l = "" → getBackendPort l = "8001")
  ∧ API_BASE_URL l = "http://" +:+ hostname l +:+ ":" +:+ getBackendPort l +:+ "/api"
  ∧ ws_url (createWebSocket l)
    = "ws://" +:+ hostname l +:+ ":" +:+ getBackendPort l +:+ "/ws/batches".
Proof.
  repeat split.
  - apply getBackendPort_dev.
  - intros Hdev Hne. rewrite getBackendPort_other by exact Hdev.
    by destruct (decide (port l = "")).
  - intros Hnone. rewrite getBackendPort_other.
    + by destruct (decide (port l = "")).
    + rewrite Hnone. unfold frontend_dev_ports. not_in_literals.
Qed.

Lemma backend_port_spec_witness :
  getBackendPort {| hostname := "localhost"; port := "5173" |} = "8003"
  ∧ getBackendPort {| hostname := "ocr.example"; port := "8080" |} = "8080"
  ∧ getBackendPort {| hostname := "ocr.example"; port := "" |} = "8001".
Proof.
  split; [|split].
  - apply (backend_port_spec {| hostname := "localhost"; port := "5173" |}).
    simpl. in_literals.
  - apply (backend_port_spec {| hostname := "ocr.example"; port := "8080" |}).
    + simpl. not_in_literals.
    + simpl. discriminate.
  - apply (backend_port_spec {| hostname := "ocr.example"; port := "" |}).
    reflexivity.
Defined.

End ApiFacts.

(* ================================================================== *)
(** * Properties of the websocket callback *)
(* ================================================================== *)

Module StreamFacts.
Import JS Api App JSFacts.

Lemma onmessage_batch_update now log prev :
  get "type" log = Str "batch_update" →
  onmessage now log prev = take 50 (process_line now log :: prev).
Proof. intros H. unfold onmessage. rewrite H. reflexivity. Qed.




(** C10. After a 'batch_update' event the log holds at most 50 entries, the
    new line first and the most recent older ones after it; what lies beyond
    the 50 most recent is dropped. *)
Theorem stream_log_bounded (l : Location) (w w' : World) (now : string) (log : object) :
  get "type" log = Str "batch_update" →
  step l w (Message now log) = Some w' →
  ocrLogs (state w') = take 50 (process_line now log :: ocrLogs (state w))
  ∧ (length (ocrLogs (state w')) ≤ 50)%nat
  ∧ head (ocrLogs (state w')) = Some (process_line now log)
  ∧ tail (ocrLogs (state w')) = take 49 (ocrLogs (state w)).
Proof.
  intros Htype Hstep. injection Hstep as <-. simpl.
  rewrite onmessage_batch_update by exact Htype.
  split; [reflexivity|]. split; [|split; reflexivity].
  rewrite length_take. lia.
Qed.

Lemma stream_log_bounded_witness :
  ∃ w', step dev_page
          (update (setOcrLogs (λ _, replicate 60 "old"%string)) (init dev_page))
          (Message "10:15:00"
             {[ "type" := Str "batch_update"; "progress_pct" := Num 10 ]})
        = Some w'
        ∧ (length (ocrLogs (state w')) ≤ 50)%nat.
Proof.
  eexists. split; [vm_compute; reflexivity|].
  eapply (stream_log_bounded dev_page
            (update (setOcrLogs (λ _, replicate 60 "old"%string)) (init dev_page)) _
            "10:15:00" {[ "type" := Str "batch_update"; "progress_pct" := Num 10 ]});
    vm_compute; reflexivity.
Defined.

End StreamFacts.

(* ================================================================== *)
(** * Properties of the upload and of the filters *)
(* ================================================================== *)

Module AppFacts.
Import JS Api App JSFacts.

(** The render of the modal adds the load of a frame to the effects, or
    nothing. *)
Lemma load_frame_cases l before w :
  load_frame l before w = w
  ∨ ∃ res, frame_src l (state w) = Some (getPreviewUrl l (id res))
           ∧ selectedResult (state w) = Some res
           ∧ isDocx (file_name res) = Some false
           ∧ load_frame l before w = emit (Frame (getPreviewUrl l (id res))) w.
Proof.
  unfold load_frame, frame_src.
  destruct (selectedResult (state w)) as [res|]; [|by left]. simpl.
  destruct (isDocx (file_name res)) as [[]|] eqn:Hd; [by left| |by left].
  case_decide; [by left|]. right. by exists res.
Qed.

Ltac step_inv H :=
  unfold step, view_result in H;
  repeat match type of H with
  | (if ?b then _ else _) = Some _ => destruct b eqn:?; [|try discriminate H]
  | (match ?o with _ => _ end) = Some _ => destruct o eqn:?; try discriminate H
  | (_ ≫= _) = Some _ => apply bind_Some in H as (? & ? & H)
  | Some (load_frame ?l ?b ?w0) = Some _ =>
      let E := fresh in
      destruct (load_frame_cases l b w0) as [E | (? & _ & _ & _ & E)];
      rewrite E in H; clear E
  | Some _ = Some _ => injection H as <-
  end.

Lemma widget_shown_idle s :
  upload_widget_shown s = true → activeTab s = "upload" ∧ isUploading s = false.
Proof.
  unfold upload_widget_shown. intros H. apply andb_true_iff in H as [H1 H2].
  apply String.eqb_eq in H1. apply negb_true_iff in H2. done.
Qed.

(** How an event moves the upload from one phase to the next. *)
Lemma phase_transition l w p ev w' :
  in_phase w p → step l w ev = Some w' →
  match p with
  | Idle =>
      in_phase w' Idle
      ∨ (∃ file, ev = ChooseFile (Some file) ∧ in_phase w' Sending
                 ∧ uploadProgress (state w') = 10)
  | Sending =>
      (in_phase w' Sending ∧ uploadProgress (state w) ≤ uploadProgress (state w')
       ∧ awaiting w' = awaiting w)
      ∨ (∃ now d, ev = UploadResolved now d ∧ in_phase w' Finishing)
      ∨ (∃ err, ev = UploadRejected err ∧ in_phase w' Idle)
  | Finishing =>
      (in_phase w' Finishing ∧ timeout w' = timeout w)
      ∨ (ev = TimeoutFired ∧ in_phase w' Idle)
  end.
Proof.
  intros Hp H.
  destruct p; simpl in Hp; destruct Hp as (Hu & Hi & Ha & Ht & Hp);
    destruct ev; step_inv H;
    try match goal with
        | Hw : upload_widget_shown _ = true |- _ =>
            apply widget_shown_idle in Hw as [_ Hw]
        end;
    try congruence;
    try (unfold change_filter; case_decide).
  all: try solve [left; simpl; intuition (eauto; lia)].
  - destruct file as [file|].
    + right. exists file. simpl. repeat split; eauto; try lia. by exists 2.
    + left. simpl. repeat split; eauto; lia.
  - left. simpl. destruct Hp as [Hp [k Hk]]. repeat split; try done.
    1,2,4: destruct (Z.ltb_spec (uploadProgress (state w)) 90); lia.
    destruct (Z.ltb_spec (uploadProgress (state w)) 90); [exists (k + 1)|exists k]; lia.
  - right; left. exists now, resp_data. simpl. repeat split; eauto.
  - right; right. exists err. simpl. repeat split; eauto; lia.
  - right. simpl. repeat split; eauto; lia.
Qed.

Lemma phase_step l w ev w' :
  (∃ p, in_phase w p) → step l w ev = Some w' → ∃ p, in_phase w' p.
Proof.
  intros [p Hp] H. pose proof (phase_transition _ _ _ _ _ Hp H) as Ht.
  destruct p; lazy iota beta in Ht.
  - destruct Ht as [? | (? & _ & ? & _)]; eauto.
  - destruct Ht as [(? & _) | [(? & ? & _ & ?) | (? & _ & ?)]]; eauto.
  - destruct Ht as [(? & _) | (_ & ?)]; eauto.
Qed.

Lemma doc_type_step l w ev w' :
  selectedDocType (state w) ∈ doc_types → step l w ev = Some w' →
  selectedDocType (state w') ∈ doc_types.
Proof.
  intros Hp H. destruct ev; step_inv H; try exact Hp.
  - destruct b; simpl; unfold doc_types; in_literals.
  - unfold change_filter. case_decide; exact Hp.
  - destruct file; exact Hp.
Qed.

Lemma filter_step l w ev w' :
  tab_filter (filterType (state w)) → step l w ev = Some w' →
  tab_filter (filterType (state w')).
Proof.
  intros Hp H. destruct ev; step_inv H; try exact Hp.
  - unfold change_filter. case_decide; [exact Hp|]. by exists f.
  - destruct file; exact Hp.
Qed.

Lemma closures_step l w ev w' :
  tab_filter (filterType (state w)) →
  (∀ u, awaiting w = Some u ∨ timeout w = Some u → tab_filter (up_filter u)) →
  step l w ev = Some w' →
  ∀ u, awaiting w' = Some u ∨ timeout w' = Some u → tab_filter (up_filter u).
Proof.
  intros Hf Hp H. destruct ev; step_inv H; try exact Hp.
  - unfold change_filter. case_decide; exact Hp.
  - destruct file; [|exact Hp]. simpl. intros u [[= <-]|Hu]; [exact Hf|].
    apply Hp. by right.
  - simpl. intros u [[=]|[= <-]]. apply Hp. by left.
  - simpl. intros u [[=]|Hu]. apply Hp. by right.
  - simpl. intros u [Hu|[=]]. apply Hp. by left.
Qed.

Lemma getResults_tab f :
  getResults (filter_value (filter_tab_value f)) = Get "results" (filter_params f).
Proof. destruct f; reflexivity. Qed.

Ltac effects_cases H :=
  unfold init, upload_rejected, upload_finished, upload_resolved, handleFileUpload,
    download, effect_body, fetchStats, fetchResults, setTimeout, await, clearInterval,
    setInterval, emit, update in H;
  cbn [effects] in H;
  repeat first
    [ apply elem_of_app in H as [H|H]
    | apply elem_of_cons in H as [H|H]
    | apply elem_of_nil in H; destruct H ].

Lemma uploads_step l w ev w' :
  selectedDocType (state w) ∈ doc_types →
  (∀ url formData, Request (Post url formData) ∈ effects w →
      ∃ t, t ∈ doc_types ∧ url = "process/upload?doc_type=" +:+ t) →
  step l w ev = Some w' →
  ∀ url formData, Request (Post url formData) ∈ effects w' →
      ∃ t, t ∈ doc_types ∧ url = "process/upload?doc_type=" +:+ t.
Proof.
  intros Hd Hp H. destruct ev; step_inv H; try exact Hp.
  - unfold change_filter. case_decide; [exact Hp|].
    intros url fd Hin. effects_cases Hin; try discriminate Hin. eauto.
  - destruct file; [|exact Hp].
    intros url fd Hin. effects_cases Hin; eauto.
    injection Hin as -> _. eauto.
  - intros url fd Hin. effects_cases Hin; try discriminate Hin. eauto.
  - intros url fd Hin. effects_cases Hin; try discriminate Hin. eauto.
  - intros url fd Hin. effects_cases Hin; try discriminate Hin. eauto.
  - intros url fd Hin. effects_cases Hin; try discriminate Hin. eauto.
Qed.

Lemma listings_step l w ev w' :
  (∀ u, awaiting w = Some u ∨ timeout w = Some u → tab_filter (up_filter u)) →
  (∀ params, Request (Get "results" params) ∈ effects w →
      ∃ f, params = filter_params f) →
  step l w ev = Some w' →
  ∀ params, Request (Get "results" params) ∈ effects w' →
      ∃ f, params = filter_params f.
Proof.
  intros Hc Hp H. destruct ev; step_inv H; try exact Hp.
  - unfold change_filter. case_decide; [exact Hp|].
    intros params Hin. effects_cases Hin; try discriminate Hin; eauto.
    rewrite getResults_tab in Hin. injection Hin as ->. eauto.
  - destruct file; [|exact Hp].
    intros params Hin. effects_cases Hin; try discriminate Hin; eauto.
  - intros params Hin. effects_cases Hin; try discriminate Hin. eauto.
  - intros params Hin. effects_cases Hin; try discriminate Hin; eauto.
    destruct (Hc x) as [f Hf]; [by right|].
    rewrite Hf, getResults_tab in Hin. injection Hin as ->. eauto.
  - intros params Hin. effects_cases Hin; try discriminate Hin. eauto.
  - intros params Hin. effects_cases Hin; try discriminate Hin. eauto.
Qed.

Lemma invariant_init l : invariant (init l).
Proof.
  split.
  - exists Idle. simpl. repeat split; lia.
  - simpl. unfold doc_types. in_literals.
  - by exists All.
  - intros u [[=]|[=]].
  - intros url fd Hin. effects_cases Hin; discriminate Hin.
  - intros params Hin. effects_cases Hin; try discriminate Hin.
    injection Hin as ->. by exists All.
Qed.

Lemma invariant_step l w ev w' :
  invariant w → step l w ev = Some w' → invariant w'.
Proof.
  intros [] H. split; eauto using phase_step, doc_type_step, filter_step,
    closures_step, uploads_step, listings_step.
Qed.

Lemma reachable_invariant l w : reachable l w → invariant w.
Proof. induction 1; eauto using invariant_init, invariant_step. Qed.

Lemma reachable_run l evs : ∀ w w', reachable l w → run l w evs = Some w' → reachable l w'.
Proof.
  induction evs as [|ev evs IH]; intros w w' Hw H; simpl in H.
  - by injection H as <-.
  - apply bind_Some in H as (w1 & H1 & H). eauto using reachable_step.
Qed.

Lemma uploading_phase w p :
  in_phase w p → isUploading (state w) = true → p = Sending ∨ p = Finishing.
Proof. destruct p; simpl; intros (Hu & _) H; eauto. congruence. Qed.

Lemma idle_not_uploading w : in_phase w Idle → isUploading (state w) = false.
Proof. by intros (Hu & _). Qed.

Lemma phase_bounds w p : in_phase w p → 0 ≤ uploadProgress (state w) ≤ 100.
Proof. destruct p; simpl; intros (_ & _ & _ & _ & H); lia. Qed.

Lemma uploading_step_monotone l w ev w' :
  (∃ p, in_phase w p) → isUploading (state w) = true →
  step l w ev = Some w' → isUploading (state w') = true →
  uploadProgress (state w) ≤ uploadProgress (state w').
Proof.
  intros [p Hp] Hu H Hu'.
  destruct (uploading_phase _ _ Hp Hu) as [-> | ->];
    pose proof (phase_transition _ _ _ _ _ Hp H) as Ht; simpl in Ht.
  - destruct Ht as [(_ & Hle & _) | [(now & d & _ & Hf) | (err & _ & Hi)]].
    + exact Hle.
    + destruct Hf as (_ & _ & _ & _ & ->). destruct Hp as (_ & _ & _ & _ & Hb & _). lia.
    + apply idle_not_uploading in Hi. congruence.
  - destruct Ht as [[Hf _] | [_ Hi]].
    + destruct Hf as (_ & _ & _ & _ & ->). destruct Hp as (_ & _ & _ & _ & ->). lia.
    + apply idle_not_uploading in Hi. congruence.
Qed.

Lemma uploading_run_monotone l evs : ∀ w w',
  (∃ p, in_phase w p) → isUploading (state w) = true →
  run_uploading l w evs = Some w' →
  uploadProgress (state w) ≤ uploadProgress (state w').
Proof.
  induction evs as [|ev evs IH]; intros w w' Hp Hu H; simpl in H.
  - injection H as <-. lia.
  - apply bind_Some in H as (w1 & H1 & H).
    destruct (isUploading (state w1)) eqn:Hu1; [|discriminate H].
    etrans; [eapply uploading_step_monotone; eauto|].
    eapply IH; eauto using phase_step.
Qed.

Lemma finishing_run l evs : ∀ w w',
  in_phase w Finishing → run_uploading l w evs = Some w' →
  in_phase w' Finishing ∧ timeout w' = timeout w.
Proof.
  induction evs as [|ev evs IH]; intros w w' Hp H; simpl in H.
  - by injection H as <-.
  - apply bind_Some in H as (w1 & H1 & H).
    destruct (isUploading (state w1)) eqn:Hu1; [|discriminate H].
    destruct (phase_transition _ _ _ _ _ Hp H1) as [[Hf Ht] | [_ Hi]].
    + rewrite <- Ht. eauto.
    + apply idle_not_uploading in Hi. congruence.
Qed.

Lemma resolved_finishing l w p now d w1 :
  in_phase w p → step l w (UploadResolved now d) = Some w1 →
  p = Sending ∧ in_phase w1 Finishing.
Proof.
  intros Hp H. pose proof (phase_transition _ _ _ _ _ Hp H) as Ht.
  apply bind_Some in H as (u & Hu & H). injection H as <-.
  destruct p; simpl in Hp; destruct Hp as (_ & _ & Ha & _); try congruence.
  destruct Ht as [(_ & _ & Ha') | [(? & ? & _ & Hf) | (? & [=] & _)]]; [|done].
  simpl in Ha'. congruence.
Qed.

(** C2. While an upload is under way the progress kept by the client never
    decreases and stays within 0 to 100: it starts at 10, a timer tick adds 5
    only while the value is below 90 and otherwise leaves it as it is, and a
    successful response sets it to 100, once: the timer is cleared and no
    second response can arrive while that upload lasts. *)
Theorem upload_progress_monotone (l : Location) (w : World) :
  reachable l w →
  0 ≤ uploadProgress (state w) ≤ 100
  ∧ (∀ file w', step l w (ChooseFile (Some file)) = Some w' →
       isUploading (state w') = true ∧ uploadProgress (state w') = 10)
  ∧ (∀ w', step l w Tick = Some w' →
       uploadProgress (state w')
       = if uploadProgress (state w) <? 90 then uploadProgress (state w) + 5
         else uploadProgress (state w))
  ∧ (∀ evs w', isUploading (state w) = true → run_uploading l w evs = Some w' →
       uploadProgress (state w) ≤ uploadProgress (state w'))
  ∧ (∀ now resp_data w1, step l w (UploadResolved now resp_data) = Some w1 →
       uploadProgress (state w1) = 100
       ∧ ∀ evs w2, run_uploading l w1 evs = Some w2 →
           uploadProgress (state w2) = 100
           ∧ step l w2 Tick = None
           ∧ ∀ now' resp_data', step l w2 (UploadResolved now' resp_data') = None).
Proof.
  intros Hr. pose proof (reachable_invariant _ _ Hr) as [[p Hp] _ _ _ _ _].
  split; [by eapply phase_bounds|].
  split; [intros file w' H; step_inv H; done|].
  split; [intros w' H; step_inv H; done|].
  split; [intros evs w' Hu H; eapply uploading_run_monotone; eauto|].
  intros now resp_data w1 H.
  destruct (resolved_finishing _ _ _ _ _ _ Hp H) as [_ Hf].
  split; [by destruct Hf as (_ & _ & _ & _ & ?)|].
  intros evs w2 Hrun.
  destruct (finishing_run _ _ _ _ Hf Hrun) as [(_ & Hi & Ha & _ & Hp2) _].
  split; [exact Hp2|]. unfold step. rewrite Hi, Ha. done.
Qed.

Lemma upload_progress_monotone_witness :
  ∃ w w',
    run dev_page (init dev_page) session_choose = Some w
    ∧ uploadProgress (state w) = 10
    ∧ run_uploading dev_page w
        [Tick; Tick; Message "10:15:05" ∅; UploadResolved "10:15:07" ∅; ClickTab LogsTab]
      = Some w'
    ∧ uploadProgress (state w) ≤ uploadProgress (state w')
    ∧ uploadProgress (state w') = 100.
Proof.
  eexists _, _. split; [vm_compute; reflexivity|]. split; [reflexivity|].
  split; [vm_compute; reflexivity|]. split; [|reflexivity].
  edestruct (upload_progress_monotone dev_page) as (_ & _ & _ & Hmono & _).
  { eapply (reachable_run dev_page session_choose);
      [apply reachable_init | vm_compute; reflexivity]. }
  apply (Hmono [Tick; Tick; Message "10:15:05" ∅; UploadResolved "10:15:07" ∅;
                ClickTab LogsTab]); vm_compute; reflexivity.
Defined.

(** C3. Every upload request carries a [doc_type] among invoice, contract and
    crac: the selected type starts as 'invoice', the three buttons can only
    set it to one of the three, and [uploadFile] puts the selected type, as
    it is, in the [doc_type] query parameter. *)
Theorem upload_doc_type (l : Location) (w : World) :
  reachable l w →
  selectedDocType initial_state = "invoice"
  ∧ selectedDocType (state w) ∈ ["invoice"; "contract"; "crac"]
  ∧ (∀ b w', step l w (ClickDocType b) = Some w' →
       selectedDocType (state w') ∈ ["invoice"; "contract"; "crac"])
  ∧ (∀ file w', step l w (ChooseFile (Some file)) = Some w' →
       effects w'
       = effects w
         ++ [Request (Post ("process/upload?doc_type=" +:+ selectedDocType (state w))
                        [("file", file)])])
  ∧ (∀ url formData, Request (Post url formData) ∈ effects w →
       ∃ t, t ∈ ["invoice"; "contract"; "crac"]
            ∧ url = "process/upload?doc_type=" +:+ t).
Proof.
  intros Hr. pose proof (reachable_invariant _ _ Hr) as [_ Hd _ _ Hu _].
  split; [reflexivity|]. split; [exact Hd|].
  split; [intros b w' H; eapply doc_type_step; eauto|].
  split; [intros file w' H; step_inv H; reflexivity|exact Hu].
Qed.

Lemma upload_doc_type_witness :
  ∃ w, run dev_page (init dev_page) session_choose = Some w
       ∧ Request (Post "process/upload?doc_type=crac" [("file", {| name := "manifest.pdf" |})])
           ∈ effects w
       ∧ ∀ url formData, Request (Post url formData) ∈ effects w →
           ∃ t, t ∈ ["invoice"; "contract"; "crac"]
                ∧ url = "process/upload?doc_type=" +:+ t.
Proof.
  eexists. split; [vm_compute; reflexivity|]. split.
  - in_literals.
  - eapply (upload_doc_type dev_page).
    eapply (reachable_run dev_page session_choose);
      [apply reachable_init | vm_compute; reflexivity].
Defined.

(** C5. When the upload request fails, the handler tells the reason at once
    in an alert (the [detail] of the response when there is one, the error's
    message otherwise), clears the timer and the uploading flag, and neither
    switches to the results view nor asks for results or stats again: the
    alert is the only thing it does to the outside, and no timeout is left
    behind. *)
Theorem upload_failure (l : Location) (w w' : World) (err : Error) :
  reachable l w →
  step l w (UploadRejected err) = Some w' →
  ∃ reason : string,
    effects w' = effects w ++ [Alert ("Processing failed: " +:+ reason)]
    ∧ reason = ToString (JS.or (detail err) (Str (message err)))
    ∧ (∀ r o d, response err = Some r → data r = Some o →
         o !! "detail" = Some (Str d) → d ≠ "" → reason = d)
    ∧ (detail err = Undefined → reason = message err)
    ∧ progressInterval w' = false
    ∧ isUploading (state w') = false
    ∧ awaiting w' = None
    ∧ timeout w' = None
    ∧ activeTab (state w') = activeTab (state w)
    ∧ results (state w') = results (state w)
    ∧ stats (state w') = stats (state w).
Proof.
  intros Hr H. pose proof (reachable_invariant _ _ Hr) as [[p Hp] _ _ _ _ _].
  pose proof (phase_transition _ _ _ _ _ Hp H) as Ht.
  apply bind_Some in H as (u & Hu & H). injection H as <-.
  eexists. split; [reflexivity|]. split; [reflexivity|].
  split; [|split].
  - intros r o d Hr' Ho Hd Hne. unfold detail. rewrite Hr'. simpl. rewrite Ho. simpl.
    unfold get. rewrite Hd. simpl.
    by rewrite or_truthy by by apply nonempty_truthy.
  - intros ->. reflexivity.
  - repeat split.
    destruct p; simpl in Hp; destruct Hp as (_ & _ & Ha & Hto & _); try congruence.
    exact Hto.
Qed.

Lemma upload_failure_witness :
  ∃ w w',
    run dev_page (init dev_page) session_sending = Some w
    ∧ step dev_page w (UploadRejected sample_error) = Some w'
    ∧ last (effects w') = Some (Alert "Processing failed: Unsupported document type")
    ∧ isUploading (state w') = false
    ∧ activeTab (state w') = "upload".
Proof.
  edestruct (upload_failure dev_page) with (err := sample_error)
    as (reason & He & _ & Hd & _ & _ & Hu & _ & _ & Htab & _).
  { eapply (reachable_run dev_page session_sending);
      [apply reachable_init | vm_compute; reflexivity]. }
  { vm_compute; reflexivity. }
  eexists _, _. split; [vm_compute; reflexivity|]. split; [vm_compute; reflexivity|].
  rewrite He, last_snoc, (Hd _ _ "Unsupported document type" eq_refl eq_refl eq_refl)
    by discriminate.
  split; [reflexivity|]. split; [exact Hu|]. rewrite Htab. reflexivity.
Defined.

(** C6. On a successful upload the handler puts the line
    '<file name> processed in <processing_time_seconds>s', marked SUCCESS,
    in front of the log; the timeout it sets then switches to the results
    view and asks for the result list and for the stats again, whatever
    happens in between; and the answers to the two requests, in whichever
    order they come, replace the list of results and the stats on the page. *)
Theorem upload_success (l : Location) (w w1 : World) (now : string) (resp_data : object) :
  reachable l w →
  step l w (UploadResolved now resp_data) = Some w1 →
  ∃ u, awaiting w = Some u
    ∧ ocrLogs (state w1)
      = ("[" +:+ now +:+ "] SUCCESS: " +:+ name (up_file u) +:+ " processed in "
         +:+ ToString (get "processing_time_seconds" resp_data) +:+ "s")
        :: ocrLogs (state w)
    ∧ activeTab (state w1) = activeTab (state w)
    ∧ effects w1 = effects w
    ∧ ∀ evs w2, run_uploading l w1 evs = Some w2 →
        ∃ w3 f, step l w2 TimeoutFired = Some w3
          ∧ activeTab (state w3) = "results"
          ∧ isUploading (state w3) = false
          ∧ up_filter u = filter_tab_value f
          ∧ effects w3
            = effects w2 ++ [Request (Get "results" (filter_params f));
                             Request (Get "stats" ∅)]
          ∧ ∀ rs st answers,
              answers = [ResultsLoaded rs; StatsLoaded st]
              ∨ answers = [StatsLoaded st; ResultsLoaded rs] →
              ∃ w4, run l w3 answers = Some w4
                ∧ results (state w4) = rs
                ∧ stats (state w4) = st
                ∧ stat_cards (state w4)
                  = [("Total Files", get "total_files" st);
                     ("Invoices", get "invoice" st);
                     ("Contracts", get "contract" st);
                     ("CRACs", get "crac" st)]
                ∧ activeTab (state w4) = "results"
                ∧ effects w4 = effects w3.
Proof.
  intros Hr H. pose proof (reachable_invariant _ _ Hr) as [[p Hp] _ _ Hc _ _].
  destruct (resolved_finishing _ _ _ _ _ _ Hp H) as [_ Hf].
  apply bind_Some in H as (u & Hu & H). injection H as <-.
  exists u. split; [exact Hu|]. split; [reflexivity|].
  split; [reflexivity|]. split; [reflexivity|].
  intros evs w2 Hrun.
  destruct (finishing_run _ _ _ _ Hf Hrun) as [_ Ht]. simpl in Ht.
  destruct (Hc u) as [f Hfilter]; [by left|].
  eexists _, f. unfold step. rewrite Ht. simpl.
  split; [reflexivity|]. split; [reflexivity|]. split; [reflexivity|].
  split; [exact Hfilter|]. split.
  - unfold upload_finished, fetchStats, fetchResults. simpl.
    rewrite Hfilter, getResults_tab, <- app_assoc. reflexivity.
  - intros rs st answers [-> | ->]; eexists; (split; [reflexivity|]); done.
Qed.

Lemma upload_success_witness :
  ∃ w w1 w3 w4,
    run dev_page (init dev_page) session_sending = Some w
    ∧ step dev_page w
        (UploadResolved "10:15:07" {[ "processing_time_seconds" := Num 4.25 ]}) = Some w1
    ∧ head (ocrLogs (state w1)) = Some "[10:15:07] SUCCESS: manifest.pdf processed in 4.25s"
    ∧ step dev_page w1 TimeoutFired = Some w3
    ∧ activeTab (state w3) = "results"
    ∧ effects w3 = effects w1 ++ [Request (Get "results" ∅); Request (Get "stats" ∅)]
    ∧ run dev_page w3 [StatsLoaded {[ "total_files" := Num 1; "crac" := Num 1 ]};
                       ResultsLoaded []] = Some w4
    ∧ results (state w4) = []
    ∧ stats (state w4) = {[ "total_files" := Num 1; "crac" := Num 1 ]}.
Proof.
  edestruct (upload_success dev_page)
    with (now := "10:15:07"%string)
         (resp_data := ({[ "processing_time_seconds" := Num 4.25 ]} : object))
    as (u & Hu & Hlog & _ & _ & Hlater).
  { eapply (reachable_run dev_page session_sending);
      [apply reachable_init | vm_compute; reflexivity]. }
  { vm_compute; reflexivity. }
  injection Hu as <-.
  destruct (Hlater [] _ eq_refl) as (w3 & f & Hstep & Htab & _ & Hf & He & Hanswers).
  destruct (Hanswers [] ({[ "total_files" := Num 1; "crac" := Num 1 ]} : object) _
              (or_intror eq_refl)) as (w4 & Hrun & Hrs & Hst & _).
  eexists _, _, w3, w4. split; [vm_compute; reflexivity|].
  split; [vm_compute; reflexivity|].
  rewrite Hlog. split; [vm_compute; reflexivity|].
  destruct f; try discriminate Hf.
  split; [exact Hstep|]. split; [exact Htab|]. split; [exact He|].
  split; [exact Hrun|]. split; [exact Hrs | exact Hst].
Defined.



(** The upload a running [handleFileUpload] waits on is the one of the file
    that was chosen, until the response or the failure arrives. *)
Lemma chosen_file_awaited l w file w' :
  step l w (ChooseFile (Some file)) = Some w' →
  awaiting w' = Some {| up_file := file; up_filter := filterType (state w) |}.
Proof. intros H. step_inv H. reflexivity. Qed.

Lemma sending_run l evs : ∀ w w',
  in_phase w Sending → run_uploading l w evs = Some w' →
  in_phase w' Sending → awaiting w' = awaiting w.
Proof.
  induction evs as [|ev evs IH]; intros w w' Hp H Hp'; simpl in H.
  - by injection H as <-.
  - apply bind_Some in H as (w1 & H1 & H).
    destruct (isUploading (state w1)) eqn:Hu1; [|discriminate H].
    destruct (phase_transition _ _ _ _ _ Hp H1)
      as [(Hs & _ & Ha) | [(? & ? & _ & Hf) | (? & _ & Hi)]].
    + rewrite <- Ha. eauto.
    + destruct (finishing_run _ _ _ _ Hf H) as [(_ & Hi & _) _].
      destruct Hp' as (_ & Hi' & _). congruence.
    + apply idle_not_uploading in Hi. congruence.
Qed.

(** The SUCCESS line names the file the user chose. *)
Lemma success_names_chosen_file l w0 file w evs w' now resp_data w1 :
  reachable l w0 →
  step l w0 (ChooseFile (Some file)) = Some w →
  run_uploading l w evs = Some w' →
  step l w' (UploadResolved now resp_data) = Some w1 →
  head (ocrLogs (state w1)) = Some (success_line now file resp_data).
Proof.
  intros Hr Hc Hrun H.
  pose proof (reachable_invariant _ _ Hr) as [[p Hp] _ _ _ _ _].
  assert (in_phase w Sending) as Hs.
  { pose proof (phase_transition _ _ _ _ _ Hp Hc) as Ht.
    step_inv Hc. apply widget_shown_idle in Heqb as [_ Hidle].
    destruct p; simpl in Hp; destruct Hp as (Hu & _); try congruence.
    destruct Ht as [Hi | (? & _ & Hs & _)]; [|done].
    apply idle_not_uploading in Hi. discriminate Hi. }
  assert (∃ p', in_phase w' p') as [p' Hp'].
  { clear -Hs Hrun. assert (∃ p, in_phase w p) as Hex by eauto. clear Hs.
    revert w Hex Hrun. induction evs as [|ev evs IH]; intros w Hex Hrun; simpl in Hrun.
    - by injection Hrun as <-.
    - apply bind_Some in Hrun as (w2 & H2 & Hrun).
      destruct (isUploading (state w2)); [|discriminate Hrun].
      eauto using phase_step. }
  destruct (resolved_finishing _ _ _ _ _ _ Hp' H) as [-> _].
  pose proof (sending_run _ _ _ _ Hs Hrun Hp') as Ha.
  rewrite (chosen_file_awaited _ _ _ _ Hc) in Ha.
  unfold step in H. rewrite Ha in H. injection H as <-. reflexivity.
Qed.

(** What the four cards show is what the last stats response carried. *)
Lemma stats_shown l w resp_data w' :
  step l w (StatsLoaded resp_data) = Some w' →
  stat_cards (state w')
  = [("Total Files", get "total_files" resp_data); ("Invoices", get "invoice" resp_data);
     ("Contracts", get "contract" resp_data); ("CRACs", get "crac" resp_data)].
Proof. intros H. injection H as <-. reflexivity. Qed.

(** C7. The listing request does not always have the [doc_type] of the
    selected filter. The effect asks for the listing of the filter each time
    it changes, but the listing asked for when an upload is over comes from
    the [fetchResults] of the render in which the file was chosen: here the
    file is chosen under 'All', 'Contracts' is selected while the upload
    runs, which sends the listing of the contracts, and when the upload is
    over the page shows the results view with 'Contracts' selected and has
    asked, last, for the listing with no [doc_type] at all, whose answer then
    fills the list. *)
Example refresh_with_filter_of_upload_start :
  ∃ w w',
    run dev_page (init dev_page)
      (session_choose ++ session_filter
       ++ [UploadResolved "10:15:07" ∅; TimeoutFired]) = Some w
    ∧ filterType (state w) = Some "contract"
    ∧ activeTab (state w) = "results"
    ∧ getResults (filter_value (filterType (state w)))
      = Get "results" {[ "doc_type" := Str "contract" ]}
    ∧ take 3 (drop 4 (effects w))
      = [CloseSocket; Request (Get "stats" ∅);
         Request (Get "results" {[ "doc_type" := Str "contract" ]})]
    ∧ drop 8 (effects w) = [Request (Get "results" ∅); Request (Get "stats" ∅)]
    ∧ (∅ : object) !! "doc_type" = None
    ∧ step dev_page w (ResultsLoaded [{| id := Num 3; file_name := Str "bill.pdf";
                                         doc_type := Str "invoice";
                                         processed_at := Str "2025-01-15T09:00:00";
                                         structured_data := None |}]) = Some w'
    ∧ filterType (state w') = Some "contract"
    ∧ doc_type <$> results (state w') = [Str "invoice"].
Proof.
  eexists _, _. split; [vm_compute; reflexivity|]. split; [reflexivity|].
  split; [reflexivity|]. split; [reflexivity|]. split; [vm_compute; reflexivity|].
  split; [vm_compute; reflexivity|]. split; [reflexivity|].
  split; [vm_compute; reflexivity|]. split; reflexivity.
Qed.

End AppFacts.

(* ================================================================== *)
(** * Properties of the result rows *)
(* ================================================================== *)

Module RowFacts.
Import JS Api App.

(** [round_scaled 1 m e] is the integer nearest to [10 * m * 2^e], the
    larger one when two are as near. *)
Lemma round_scaled_nearest (m e : Z) :
  0 < m →
  0 ≤ round_scaled 1 m e
  ∧ (2 * round_scaled 1 m e - 1) * 2 ^ Z.max (- e) 0 ≤ 20 * m * 2 ^ Z.max e 0
  ∧ 20 * m * 2 ^ Z.max e 0 < (2 * round_scaled 1 m e + 1) * 2 ^ Z.max (- e) 0.
Proof.
  intros Hm. unfold round_scaled. change (10 ^ Z.of_nat 1) with 10.
  destruct (Z.leb_spec 0 e) as [He|He].
  - rewrite (Z.max_l e 0), (Z.max_r (- e) 0) by lia. change (2 ^ 0) with 1.
    assert (0 < 2 ^ e) by (apply Z.pow_pos_nonneg; lia). nia.
  - rewrite (Z.max_r e 0), (Z.max_l (- e) 0) by lia. change (2 ^ 0) with 1.
    replace (1 - e) with (Z.succ (- e)) by lia. rewrite Z.pow_succ_r by lia.
    assert (0 < 2 ^ (- e)) as Hd by (apply Z.pow_pos_nonneg; lia).
    set (d := 2 ^ (- e)) in *.
    pose proof (Z.div_mod (2 * m * 10 + d) (2 * d) ltac:(lia)) as Hdiv.
    pose proof (Z.mod_pos_bound (2 * m * 10 + d) (2 * d) ltac:(lia)) as Hmod.
    set (n := (2 * m * 10 + d) / (2 * d)) in *.
    assert (0 ≤ n) by (apply Z.div_pos; lia).
    split; [assumption|]. nia.
Qed.

Lemma toFixed_finite (x : float) sg m e :
  Prim2SF x = S754_finite sg m e → huge (Z.pos m) e = false →
  toFixed 1 x
  = (if sg then "-" else "")
    +:+ pretty (round_scaled 1 (Z.pos m) e / 10)
    +:+ "." +:+ pretty (round_scaled 1 (Z.pos m) e mod 10).
Proof. intros Hx Hh. unfold toFixed. rewrite Hx, Hh. reflexivity. Qed.

Lemma label_falsy S2N res :
  ToBoolean (Num (ToNumber S2N (get_opt "confidence" (structured_data res)) * 100)) = false →
  confidence_label S2N res = "95.0%".
Proof. intros H. unfold confidence_label, or_num. rewrite H. reflexivity. Qed.

Lemma label_truthy S2N res :
  ToBoolean (Num (ToNumber S2N (get_opt "confidence" (structured_data res)) * 100)) = true →
  confidence_label S2N res
  = toFixed 1 (ToNumber S2N (get_opt "confidence" (structured_data res)) * 100) +:+ "%".
Proof. intros H. unfold confidence_label, or_num. rewrite H. reflexivity. Qed.

(** C9. The confidence shown in a result row is '95.0%' when
    [structured_data.confidence] is absent, [undefined] or 0, and for any
    value that makes [confidence * 100] falsy; otherwise it is
    [confidence * 100] with one decimal, the nearest one, followed by a
    percent sign. Fixed notation is what [toFixed] gives below 10^21. *)
Theorem confidence_display (StringToNumber : string → float) (res : Result) :
  (structured_data res = None → confidence_label StringToNumber res = "95.0%")
  ∧ (∀ o, structured_data res = Some o → o !! "confidence" = None →
       confidence_label StringToNumber res = "95.0%")
  ∧ (get_opt "confidence" (structured_data res) = Undefined →
       confidence_label StringToNumber res = "95.0%")
  ∧ (get_opt "confidence" (structured_data res) = Num 0 →
       confidence_label StringToNumber res = "95.0%")
  ∧ (ToBoolean (Num (ToNumber StringToNumber
                       (get_opt "confidence" (structured_data res)) * 100)) = false →
       confidence_label StringToNumber res = "95.0%")
  ∧ (∀ sg m e,
       ToBoolean (Num (ToNumber StringToNumber
                         (get_opt "confidence" (structured_data res)) * 100)) = true →
       Prim2SF (ToNumber StringToNumber
                  (get_opt "confidence" (structured_data res)) * 100)
       = S754_finite sg m e →
       huge (Z.pos m) e = false →
       ∃ n, confidence_label StringToNumber res
            = ((if sg then "-" else "")
               +:+ pretty (n / 10) +:+ "." +:+ pretty (n mod 10)) +:+ "%"
          ∧ 0 ≤ n
          ∧ (2 * n - 1) * 2 ^ Z.max (- e) 0 ≤ 20 * Z.pos m * 2 ^ Z.max e 0
          ∧ 20 * Z.pos m * 2 ^ Z.max e 0 < (2 * n + 1) * 2 ^ Z.max (- e) 0).
Proof.
  assert (get_opt "confidence" (structured_data res) = Undefined →
          confidence_label StringToNumber res = "95.0%") as Hundef.
  { intros Hc. apply label_falsy. rewrite Hc. reflexivity. }
  split; [|split; [|split; [|split; [|split]]]].
  - intros Hn. apply Hundef. rewrite Hn. reflexivity.
  - intros o Ho Hc. apply Hundef. rewrite Ho. simpl. unfold get. rewrite Hc. reflexivity.
  - exact Hundef.
  - intros Hc. apply label_falsy. rewrite Hc. reflexivity.
  - apply label_falsy.
  - intros sg m e Ht Hx Hh. exists (round_scaled 1 (Z.pos m) e).
    rewrite label_truthy by exact Ht. rewrite (toFixed_finite _ sg m e) by assumption.
    split; [reflexivity|]. apply round_scaled_nearest. lia.
Qed.

Lemma confidence_display_witness :
  confidence_label (λ _, nan)
    {| id := Num 7; file_name := Str "invoice_42.pdf"; doc_type := Str "invoice";
       processed_at := Str "2025-01-15T10:15:07"; structured_data := None |}
  = "95.0%"
  ∧ confidence_label (λ _, nan)
      {| id := Num 8; file_name := Str "lease.pdf"; doc_type := Str "contract";
         processed_at := Str "2025-01-15T10:20:00";
         structured_data := Some {[ "confidence" := Num 0 ]} |}
    = "95.0%"
  ∧ confidence_label (λ _, nan)
      {| id := Num 9; file_name := Str "manifest.pdf"; doc_type := Str "crac";
         processed_at := Str "2025-01-15T10:21:00";
         structured_data := Some {[ "confidence" := Num 0.875 ]} |}
    = "87.5%".
Proof.
  split; [|split].
  - apply confidence_display. reflexivity.
  - apply confidence_display. reflexivity.
  - edestruct (confidence_display (λ _, nan)
       {| id := Num 9; file_name := Str "manifest.pdf"; doc_type := Str "crac";
          processed_at := Str "2025-01-15T10:21:00";
          structured_data := Some {[ "confidence" := Num 0.875 ]} |})
      as (_ & _ & _ & _ & _ & H).
    edestruct (H false 6157265115545600%positive (-46)) as (n & -> & Hn & Hlo & Hhi);
      [reflexivity | reflexivity | reflexivity |].
    change (2 ^ Z.max (- -46) 0) with 70368744177664 in Hlo, Hhi.
    change (2 ^ Z.max (-46) 0) with 1 in Hlo, Hhi.
    assert (n = 875) as -> by lia.
    vm_compute. reflexivity.
Defined.

End RowFacts.

(* ================================================================== *)
(** * Properties of the Result Store *)
(* ================================================================== *)

Module StoreFacts.
Import ResultStore.

Lemma filter_all (l : list Result) : List.filter (matches None) l = l.
Proof. induction l as [|r l IH]; simpl; [done | by rewrite IH]. Qed.

Lemma by_type_partition (l : list Result) :
  (length (List.filter (matches (Some invoice)) l)
   + length (List.filter (matches (Some contract)) l)
   + length (List.filter (matches (Some crac)) l))%nat
  = length l.
Proof.
  induction l as [|r l IH]; simpl; [done|].
  destruct (type r); simpl; lia.
Qed.

Lemma list_results_length (filter : option doc_type) (s : store) :
  length (list_results filter s) = length (List.filter (matches filter) (stored s)).
Proof.
  unfold list_results. apply Permutation_length, merge_sort_Permutation.
Qed.

Lemma filter_Permutation (f : Result → bool) (l l' : list Result) :
  l ≡ₚ l' → List.filter f l ≡ₚ List.filter f l'.
Proof.
  induction 1 as [|x l l' _ IH|x y l|l l' l'' _ IH1 _ IH2]; simpl.
  - done.
  - destruct (f x); [by constructor | done].
  - destruct (f x), (f y); try done. apply perm_swap.
  - by etrans.
Qed.

(** C4. After any sequence of creates and deletes the total of the
    aggregate counts is the length of the unfiltered list of Results, and the
    counts of invoice, contract and crac add up to it; each count is the
    length of the list filtered by that type. The counts are computed from
    the stored Results: two stores holding the same Results have the same
    counts, however they were reached. *)
Theorem counts_agree (ops : list op) :
  total (aggregateCounts (run ops)) = length (list_results None (run ops))
  ∧ (by_type (aggregateCounts (run ops)) invoice
     + by_type (aggregateCounts (run ops)) contract
     + by_type (aggregateCounts (run ops)) crac)%nat
    = total (aggregateCounts (run ops))
  ∧ (∀ t, by_type (aggregateCounts (run ops)) t
          = length (list_results (Some t) (run ops)))
  ∧ (∀ ops', stored (run ops') ≡ₚ stored (run ops) →
       total (aggregateCounts (run ops')) = total (aggregateCounts (run ops))
       ∧ ∀ t, by_type (aggregateCounts (run ops')) t
              = by_type (aggregateCounts (run ops)) t).
Proof.
  split; [|split; [|split]].
  - rewrite list_results_length, filter_all. reflexivity.
  - apply by_type_partition.
  - intros t. by rewrite list_results_length.
  - intros ops' Hp. simpl. split.
    + by apply Permutation_length.
    + intros t. by apply Permutation_length, filter_Permutation.
Qed.

Lemma counts_agree_witness :
  total (aggregateCounts (run sample_ops)) = 2%nat
  ∧ length (list_results None (run sample_ops)) = 2%nat
  ∧ by_type (aggregateCounts (run sample_ops)) invoice = 1%nat
  ∧ by_type (aggregateCounts (run sample_ops)) contract = 0%nat
  ∧ by_type (aggregateCounts (run sample_ops)) crac = 1%nat.
Proof.
  destruct (counts_agree sample_ops) as (Htotal & Hsum & _ & _).
  assert (total (aggregateCounts (run sample_ops)) = 2%nat) as H2
    by (vm_compute; reflexivity).
  split; [exact H2|]. split; [by rewrite <- Htotal|].
  assert (by_type (aggregateCounts (run sample_ops)) invoice = 1%nat) as Hi
    by (vm_compute; reflexivity).
  assert (by_type (aggregateCounts (run sample_ops)) contract = 0%nat) as Hc
    by (vm_compute; reflexivity).
  split; [exact Hi|]. split; [exact Hc|].
  rewrite H2, Hi, Hc in Hsum. lia.
Defined.

End StoreFacts.

(* ================================================================== *)
(** * Further properties of the page *)
(* ================================================================== *)

Module PageFacts.
Import JS Api App JSFacts AppFacts View.

(** What one event adds to the effects. *)
Lemma step_effects l w ev w' :
  step l w ev = Some w' →
  effects w' = effects w
  ∨ (∃ f, ev = ClickFilter f ∧ filterType (state w) ≠ filter_tab_value f
          ∧ effects w' = effects w ++ [CloseSocket; Request getStats;
                                        Request (getResults (filter_value (filter_tab_value f)));
                                        OpenSocket (createWebSocket l)])
  ∨ (∃ file, ev = ChooseFile (Some file)
             ∧ effects w' = effects w
                            ++ [Request (uploadFile file (selectedDocType (state w)))])
  ∨ (∃ u, ev = TimeoutFired ∧ timeout w = Some u
          ∧ effects w' = effects w ++ [Request (getResults (filter_value (up_filter u)));
                                        Request getStats])
  ∨ (∃ err, ev = UploadRejected err
            ∧ effects w' = effects w
                           ++ [Alert ("Processing failed: "
                                      +:+ ToString (JS.or (detail err) (Str (message err))))])
  ∨ (∃ i res, ev = ViewResult i ∧ results (state w) !! i = Some res
              ∧ isDocx (file_name res) = Some false
              ∧ effects w' = effects w ++ [Frame (getPreviewUrl l (id res))])
  ∨ (∃ res, ev = ClickDownload ∧ selectedResult (state w) = Some res
            ∧ effects w' = effects w ++ [OpenLink (getDownloadUrl l (id res))]).
Proof.
  intros H. destruct ev.
  12: { unfold step, view_result in H.
        destruct (filter_tabs_shown (state w)); [|done].
        apply bind_Some in H as (res & Hres & H).
        apply bind_Some in H as (d & Hd & H). injection H as <-.
        destruct (load_frame_cases l (state w) (update (setSelectedResult (Some res)) w))
          as [-> | (res' & _ & Hsel & Hdoc & ->)]; [by left|].
        injection Hsel as <-. do 5 right. left. by exists i, res. }
  all: step_inv H; try (by left).
  - unfold change_filter. case_decide as Hcur; [by left|].
    right; left. exists f. split; [done|]. split; [done|].
    unfold effect_body, fetchStats, fetchResults, emit. simpl.
    by rewrite <- !app_assoc.
  - destruct file as [file|]; [|by left]. right; right; left. by exists file.
  - right; right; right; right; left. by exists err.
  - right; right; right; left. exists x. split; [done|]. split; [done|].
    unfold upload_finished, fetchStats, fetchResults, emit. simpl.
    by rewrite <- !app_assoc.
  - do 6 right. by exists x.
Qed.

(** The effects of one event, sorted: what it does to the sockets, what it
    asks of the server, and the rest. *)
Ltac effects_of H He :=
  destruct (step_effects _ _ _ _ H)
    as [He | [(? & _ & ? & He) | [(? & _ & He) | [(? & _ & ? & He)
       | [(? & _ & He) | [(? & ? & _ & ? & ? & He) | (? & _ & ? & He)]]]]]].

Lemma sockets_open_app es es' :
  sockets_open (es ++ es') = sockets_open es + sockets_open es'.
Proof.
  unfold sockets_open. rewrite foldl_app.
  generalize (foldl (λ n e, match e with
                            | OpenSocket _ => n + 1
                            | CloseSocket => n - 1
                            | _ => n
                            end) 0 es) as a.
  induction es' as [|e es' IH] using rev_ind; intros a; simpl; [lia|].
  rewrite !foldl_app. simpl. rewrite IH. destruct e; lia.
Qed.

Lemma sockets_open_one l w : reachable l w → sockets_open (effects w) = 1.
Proof.
  induction 1 as [|w ev w' _ IH H]; [reflexivity|].
  effects_of H He; rewrite He, ?sockets_open_app, IH; reflexivity.
Qed.

Lemma socket_effects_app es es' :
  socket_effects (es ++ es') = socket_effects es ++ socket_effects es'.
Proof. apply List.filter_app. Qed.

(** Only a change of filter touches the sockets: it closes the one that is
    open, then opens the next. *)
Lemma socket_step l w ev w' :
  step l w ev = Some w' →
  socket_effects (effects w') = socket_effects (effects w)
  ∨ (∃ f, ev = ClickFilter f ∧ filterType (state w) ≠ filter_tab_value f
          ∧ filterType (state w') = filter_tab_value f
          ∧ socket_effects (effects w')
            = socket_effects (effects w) ++ [CloseSocket; OpenSocket (createWebSocket l)]).
Proof.
  intros H.
  destruct (step_effects _ _ _ _ H)
    as [He | [(f & -> & Hne & He) | [(? & _ & He) | [(? & _ & ? & He)
       | [(? & _ & He) | [(? & ? & _ & ? & ? & He) | (? & _ & ? & He)]]]]]];
    rewrite He, ?socket_effects_app; try (left; by rewrite ?app_nil_r).
  right. exists f. split; [done|]. split; [done|]. split; [|done].
  step_inv H. unfold change_filter. by rewrite decide_False.
Qed.

(** X1. While it is on the page the component has exactly one websocket of
    its own making open, and it is the one to [/ws/batches]: the effect opens
    it after the first render, and the only event that touches the sockets is
    a change of filter, which closes the open one first and then opens the
    next. So what the client has done to its sockets is an opening followed
    by any number of closings, each followed by an opening. *)
Theorem one_socket_open (l : Location) (w : World) :
  reachable l w →
  (∃ n, socket_effects (effects w)
        = OpenSocket (createWebSocket l)
          :: concat (replicate n [CloseSocket; OpenSocket (createWebSocket l)]))
  ∧ sockets_open (effects w) = 1
  ∧ (∀ ev w', step l w ev = Some w' →
       socket_effects (effects w') = socket_effects (effects w)
       ∨ (∃ f, ev = ClickFilter f ∧ filterType (state w) ≠ filter_tab_value f
               ∧ filterType (state w') = filter_tab_value f
               ∧ socket_effects (effects w')
                 = socket_effects (effects w)
                   ++ [CloseSocket; OpenSocket (createWebSocket l)])).
Proof.
  intros Hr. split; [|split; [by eapply sockets_open_one | by apply socket_step]].
  induction Hr as [|w ev w' _ [n IH] H]; [by exists 0%nat|].
  destruct (socket_step _ _ _ _ H) as [-> | (f & _ & _ & _ & ->)]; [by exists n|].
  exists (S n). rewrite IH, replicate_S_end, concat_app. reflexivity.
Qed.

Lemma one_socket_open_witness :
  ∃ w, run dev_page (init dev_page) session_filter = Some w
       ∧ socket_effects (effects w)
         = [OpenSocket (createWebSocket dev_page); CloseSocket;
            OpenSocket (createWebSocket dev_page)]
       ∧ sockets_open (effects w) = 1
       ∧ length (effects w) = 7%nat.
Proof.
  eexists. split; [vm_compute; reflexivity|]. split; [vm_compute; reflexivity|].
  split; [|reflexivity].
  eapply (one_socket_open dev_page).
  eapply (reachable_run dev_page session_filter);
    [apply reachable_init | vm_compute; reflexivity].
Defined.

Lemma gets_to_app url es es' :
  gets_to url (es ++ es') = (gets_to url es + gets_to url es')%nat.
Proof. unfold gets_to. by rewrite List.filter_app, length_app. Qed.

Lemma gets_to_get url u params :
  gets_to url [Request (Get u params)] = if String.eqb u url then 1%nat else 0%nat.
Proof. unfold gets_to. cbn [List.filter]. by destruct (String.eqb u url). Qed.

Lemma gets_to_listing url v :
  gets_to url [Request (getResults v)] = if String.eqb "results" url then 1%nat else 0%nat.
Proof. apply gets_to_get. Qed.





(** X3. The stats and the listing are always asked for together: at any
    time the client has sent as many stats requests as listing requests. *)
Theorem stats_with_listings (l : Location) (w : World) :
  reachable l w → gets_to "stats" (effects w) = gets_to "results" (effects w).
Proof.
  induction 1 as [|w ev w' Hr IH H]; [reflexivity|].
  destruct (step_effects _ _ _ _ H)
    as [He | [(f & _ & _ & He) | [(file & _ & He) | [(u & _ & Hu & He)
       | [(err & _ & He) | [(? & ? & _ & ? & ? & He) | (? & _ & ? & He)]]]]]];
    rewrite He, ?gets_to_app, ?IH; [done|..].
  + change [CloseSocket; Request getStats;
            Request (getResults (filter_value (filter_tab_value f)));
            OpenSocket (createWebSocket l)]
      with ([CloseSocket; Request getStats]
            ++ [Request (getResults (filter_value (filter_tab_value f)))]
            ++ [OpenSocket (createWebSocket l)]).
    rewrite !gets_to_app, !gets_to_listing. reflexivity.
  + reflexivity.
  + change [Request (getResults (filter_value (up_filter u))); Request getStats]
      with ([Request (getResults (filter_value (up_filter u)))] ++ [Request getStats]).
    rewrite !gets_to_app, !gets_to_listing. reflexivity.
  + reflexivity.
  + reflexivity.
  + reflexivity.
Qed.

Lemma stats_with_listings_witness :
  ∃ w, run dev_page (init dev_page) (session_choose ++ session_refilter ++ [TimeoutFired])
       = Some w
       ∧ gets_to "stats" (effects w) = 3%nat
       ∧ gets_to "results" (effects w) = 3%nat.
Proof.
  eexists. split; [vm_compute; reflexivity|]. split; [vm_compute; reflexivity|].
  erewrite <- (stats_with_listings dev_page); [vm_compute; reflexivity|].
  eapply (reachable_run dev_page (session_choose ++ session_refilter ++ [TimeoutFired]));
    [apply reachable_init | vm_compute; reflexivity].
Defined.

(** X4. Only choosing a file, the timer, the upload's response and the
    closing timeout change [uploadProgress]; a websocket message never does,
    whatever [progress_pct] it carries. *)
Theorem progress_sources (l : Location) (w w' : World) (ev : event) :
  step l w ev = Some w' →
  uploadProgress (state w') ≠ uploadProgress (state w) →
  (∃ file, ev = ChooseFile (Some file)) ∨ ev = Tick
  ∨ (∃ now resp_data, ev = UploadResolved now resp_data) ∨ ev = TimeoutFired.
Proof.
  intros H Hne. destruct ev; step_inv H; try (by destruct Hne).
  - unfold change_filter in Hne. case_decide; by destruct Hne.
  - destruct file; [left; eauto | by destruct Hne].
  - by right; left.
  - right; right; left. eauto.
  - by right; right; right.
Qed.

Lemma progress_sources_witness :
  ∃ w w', run dev_page (init dev_page) session_choose = Some w
          ∧ step dev_page w Tick = Some w'
          ∧ uploadProgress (state w') = 15
          ∧ ((∃ file, Tick = ChooseFile (Some file)) ∨ Tick = Tick
             ∨ (∃ now resp_data, Tick = UploadResolved now resp_data)
             ∨ Tick = TimeoutFired).
Proof.
  eexists _, _. split; [vm_compute; reflexivity|].
  match goal with
  | |- step _ ?x _ = _ ∧ _ =>
      pose proof (progress_sources dev_page x (tick x) Tick) as H
  end.
  split; [vm_compute; reflexivity|]. split; [reflexivity|].
  apply H; [vm_compute; reflexivity | vm_compute; discriminate].
Defined.

(** X5. The backend port is never empty: it is the page's own port, "8003"
    or "8001". *)
Theorem backend_port_nonempty (l : Location) :
  getBackendPort l ≠ ""
  ∧ (getBackendPort l = port l ∨ getBackendPort l = "8003" ∨ getBackendPort l = "8001").
Proof.
  destruct (decide (port l ∈ frontend_dev_ports)) as [Hdev|Hdev].
  - rewrite ApiFacts.getBackendPort_dev by done. split; [done | eauto].
  - rewrite ApiFacts.getBackendPort_other by done.
    destruct (decide (port l = "")); split; eauto; done.
Qed.

(** X6. The progress timer is live exactly while the upload's response is
    awaited, the uploading flag is set exactly while the response is awaited
    or the closing timeout is pending, and the two never overlap: neither a
    timer nor the flag is left behind. *)
Theorem upload_flags (l : Location) (w : World) :
  reachable l w →
  (progressInterval w = true ↔ is_Some (awaiting w))
  ∧ (isUploading (state w) = true ↔ is_Some (awaiting w) ∨ is_Some (timeout w))
  ∧ ¬ (is_Some (awaiting w) ∧ is_Some (timeout w)).
Proof.
  intros Hr. pose proof (reachable_invariant _ _ Hr) as [[p Hp] _ _ _ _ _].
  destruct p; simpl in Hp; destruct Hp as (Hu & Hi & Ha & Ht & _);
    rewrite ?Hu, ?Hi, ?Ha, ?Ht.
  - split; [|split].
    + split; [done | by intros [? [=]]].
    + split; [done | by intros [[? [=]] | [? [=]]]].
    + by intros [[? [=]] _].
  - split; [|split].
    + done.
    + split; eauto.
    + by intros [_ [? [=]]].
  - split; [|split].
    + split; [done | by intros [? [=]]].
    + split; eauto.
    + by intros [[? [=]] _].
Qed.

Lemma upload_flags_witness :
  ∃ w, run dev_page (init dev_page) session_sending = Some w
       ∧ progressInterval w = true
       ∧ isUploading (state w) = true
       ∧ (progressInterval w = true ↔ is_Some (awaiting w)).
Proof.
  eexists. split; [vm_compute; reflexivity|]. split; [reflexivity|].
  split; [reflexivity|].
  eapply (upload_flags dev_page).
  eapply (reachable_run dev_page session_sending);
    [apply reachable_init | vm_compute; reflexivity].
Defined.

Lemma progress_multiple_of_5 l w : reachable l w → (5 | uploadProgress (state w)).
Proof.
  induction 1 as [|w ev w' Hr IH H]; [by exists 0|].
  destruct ev; step_inv H; try exact IH.
  - unfold change_filter. case_decide; exact IH.
  - destruct file; [by exists 2 | exact IH].
  - simpl. destruct IH as [k Hk].
    destruct (Z.ltb_spec (uploadProgress (state w)) 90); [exists (k + 1) | exists k]; lia.
  - by exists 20.
  - by exists 0.
Qed.

(** X7. The progress is always a multiple of 5, at most 90 or exactly 100;
    it is 100 as long as the closing timeout of a successful upload is
    pending, and between 10 and 90 while the response is awaited. *)
Theorem progress_values (l : Location) (w : World) :
  reachable l w →
  (5 | uploadProgress (state w))
  ∧ (uploadProgress (state w) ≤ 90 ∨ uploadProgress (state w) = 100)
  ∧ (is_Some (timeout w) → uploadProgress (state w) = 100)
  ∧ (is_Some (awaiting w) → 10 ≤ uploadProgress (state w) ≤ 90).
Proof.
  intros Hr. split; [by eapply progress_multiple_of_5|].
  pose proof (reachable_invariant _ _ Hr) as [[p Hp] _ _ _ _ _].
  destruct p; simpl in Hp; destruct Hp as (Hu & Hi & Ha & Ht & Hp);
    rewrite ?Ha, ?Ht.
  - split; [left; lia|]. split; by intros [? [=]].
  - split; [left; lia|]. split; [by intros [? [=]] | intros _; lia].
  - split; [by right|]. split; [done | by intros [? [=]]].
Qed.

Lemma progress_values_witness :
  ∃ w w1, run dev_page (init dev_page) session_sending = Some w
          ∧ uploadProgress (state w) = 20
          ∧ (5 | uploadProgress (state w))
          ∧ step dev_page w (UploadResolved "10:15:07" ∅) = Some w1
          ∧ is_Some (timeout w1)
          ∧ uploadProgress (state w1) = 100.
Proof.
  edestruct (progress_values dev_page) as (H5 & _).
  { eapply (reachable_run dev_page session_sending);
      [apply reachable_init | vm_compute; reflexivity]. }
  edestruct (progress_values dev_page) as (_ & _ & H100 & _).
  { eapply (reachable_run dev_page (session_sending ++ [UploadResolved "10:15:07" ∅]));
      [apply reachable_init | vm_compute; reflexivity]. }
  eexists _, _. split; [vm_compute; reflexivity|]. split; [reflexivity|].
  split; [exact H5|]. split; [vm_compute; reflexivity|].
  assert (is_Some (Some {| up_file := {| name := "manifest.pdf" |};
                           up_filter := None |})) as Hsome by eauto.
  split; [exact Hsome | exact (H100 Hsome)].
Defined.

Lemma ticks_while_sending l n : ∀ w,
  in_phase w Sending →
  ∃ w', run l w (replicate n Tick) = Some w'
        ∧ in_phase w' Sending
        ∧ uploadProgress (state w') = Z.min 90 (uploadProgress (state w) + 5 * Z.of_nat n).
Proof.
  induction n as [|n IH]; intros w Hp.
  - exists w. split; [done|]. split; [done|].
    destruct Hp as (_ & _ & _ & _ & Hb & _). lia.
  - assert (step l w Tick = Some (tick w)) as Hstep.
    { destruct Hp as (_ & Hi & _). unfold step. by rewrite Hi. }
    pose proof (phase_transition _ _ _ _ _ Hp Hstep) as Ht. lazy iota beta in Ht.
    destruct Ht as [(Hs & _) | [(? & ? & [=] & _) | (? & [=] & _)]].
    destruct (IH _ Hs) as (w' & Hrun & Hs' & Hval).
    exists w'. split; [|split; [exact Hs'|]].
    + change (replicate (S n) Tick) with (Tick :: replicate n Tick).
      cbn [run]. rewrite Hstep. exact Hrun.
    + rewrite Hval. cbn [tick update state setUploadProgress uploadProgress].
      destruct Hp as (_ & _ & _ & _ & Hb & [k Hk]).
      destruct (Z.ltb_spec (uploadProgress (state w)) 90); lia.
Qed.

(** X8. After a file is chosen the timer can fire any number of times while
    the response is out, and after [n] ticks the progress is the smaller of 90
    and [10 + 5 n]: it waits at 90 from the sixteenth tick on. *)
Theorem progress_after_ticks (l : Location) (w0 w : World) (file : File) (n : nat) :
  reachable l w0 →
  step l w0 (ChooseFile (Some file)) = Some w →
  ∃ w', run l w (replicate n Tick) = Some w'
        ∧ uploadProgress (state w') = Z.min 90 (10 + 5 * Z.of_nat n)
        ∧ is_Some (awaiting w').
Proof.
  intros Hr H. pose proof (reachable_invariant _ _ Hr) as [[p Hp] _ _ _ _ _].
  assert (in_phase w Sending ∧ uploadProgress (state w) = 10) as [Hs H10].
  { pose proof (phase_transition _ _ _ _ _ Hp H) as Ht.
    step_inv H. apply widget_shown_idle in Heqb as [_ Hidle].
    destruct p; simpl in Hp; destruct Hp as (Hu & _); try congruence.
    destruct Ht as [Hi | (? & _ & Hs & ?)]; [|done].
    apply idle_not_uploading in Hi. discriminate Hi. }
  destruct (ticks_while_sending l n _ Hs) as (w' & Hrun & Hs' & Hval).
  exists w'. split; [exact Hrun|]. split; [by rewrite Hval, H10|].
  by destruct Hs' as (_ & _ & ? & _).
Qed.

Lemma progress_after_ticks_witness :
  ∃ w w', run dev_page (init dev_page) session_choose = Some w
          ∧ run dev_page w (replicate 20 Tick) = Some w'
          ∧ uploadProgress (state w') = 90.
Proof.
  edestruct (progress_after_ticks dev_page) with (file := sample_file) (n := 20%nat)
    as (w' & Hrun & Hval & _).
  { eapply (reachable_run dev_page session_upload_tab);
      [apply reachable_init | vm_compute; reflexivity]. }
  { vm_compute; reflexivity. }
  eexists _, w'. split; [vm_compute; reflexivity|]. split; [exact Hrun | exact Hval].
Defined.

(** X9. A click on a filter tab selects its filter, and a second click on
    the same tab changes nothing and sends nothing; neither does a click on
    the tab of the filter already selected. *)
Theorem filter_click_idempotent (l : Location) (w w' : World) (f : filter_tab) :
  step l w (ClickFilter f) = Some w' →
  filterType (state w') = filter_tab_value f
  ∧ step l w' (ClickFilter f) = Some w'
  ∧ (filterType (state w) = filter_tab_value f → w' = w).
Proof.
  intros H. step_inv H. unfold change_filter.
  case_decide as Hcur.
  - split; [done|]. split; [|done].
    unfold step. rewrite Heqb. unfold change_filter. by rewrite decide_True.
  - split; [done|]. split; [|done].
    unfold step. cbn [state update effect_body fetchStats fetchResults emit].
    unfold filter_tabs_shown in *. cbn [activeTab setFilterType].
    rewrite Heqb. unfold change_filter.
    cbn [state update effect_body fetchStats fetchResults emit filterType setFilterType].
    by rewrite decide_True.
Qed.

Lemma filter_click_idempotent_witness :
  ∃ w w', run dev_page (init dev_page) [ClickTab ResultsTab] = Some w
          ∧ step dev_page w (ClickFilter Contracts) = Some w'
          ∧ step dev_page w' (ClickFilter Contracts) = Some w'
          ∧ filterType (state w') = Some "contract".
Proof.
  edestruct (filter_click_idempotent dev_page)
    with (w := update (setActiveTab "results") (init dev_page)) (f := Contracts)
    as (Hval & Hagain & _); [vm_compute; reflexivity|].
  eexists _, _. split; [vm_compute; reflexivity|]. split; [vm_compute; reflexivity|].
  split; [exact Hagain | exact Hval].
Defined.

(** X10. With no preview open, a click on the eye of the row [i] selects the
    Result at that position of the list; the modal shows the preview in a
    frame, which the browser loads, unless the file name ends in '.docx';
    closing the preview then brings the component back to where it was, the
    load of the frame apart. For a Result whose [file_name] is not a string
    the modal throws, and the component does not survive the click. *)
Theorem preview_open_close (l : Location) (w : World) (i : nat) (res : Result) :
  filter_tabs_shown (state w) = true →
  selectedResult (state w) = None →
  results (state w) !! i = Some res →
  match isDocx (file_name res) with
  | None => step l w (ViewResult i) = None
  | Some docx =>
      ∃ w1, step l w (ViewResult i) = Some w1
        ∧ selectedResult (state w1) = Some res
        ∧ effects w1
          = effects w ++ (if docx then [] else [Frame (getPreviewUrl l (id res))])
        ∧ step l w1 ClosePreview
          = Some (if docx then w else emit (Frame (getPreviewUrl l (id res))) w)
  end.
Proof.
  intros Htab Hnone Hres.
  assert (step l w (ViewResult i) = view_result l res w) as ->.
  { unfold step. by rewrite Htab, Hres. }
  unfold view_result. destruct (isDocx (file_name res)) as [docx|] eqn:Hd; [|done].
  simpl. eexists. split; [reflexivity|].
  unfold load_frame, frame_src.
  cbn [state update selectedResult setSelectedResult mbind option_bind].
  rewrite Hd, Hnone. cbn [mbind option_bind].
  destruct w as [[] ? ? ? ?]. simpl in *. subst.
  destruct docx.
  - split; [done|]. split; [by rewrite app_nil_r | done].
  - split; [done|]. split; done.
Qed.

Lemma preview_open_close_witness :
  ∃ w w1, run dev_page (init dev_page) session_rows = Some w
          ∧ step dev_page w (ViewResult 0) = Some w1
          ∧ selectedResult (state w1) = Some sample_row
          ∧ effects w1 = effects w
          ∧ step dev_page w1 ClosePreview = Some w
          ∧ step dev_page w (ViewResult 1)
            = Some (emit (Frame "http://localhost:8003/api/results/12/preview")
                      (update (setSelectedResult (Some sample_scan)) w))
          ∧ step dev_page w (ViewResult 2) = None.
Proof.
  pose (w := update (setResults [sample_row; sample_scan; sample_nameless])
               (update (setActiveTab "results") (init dev_page))).
  pose proof (preview_open_close dev_page w 0 sample_row
                eq_refl eq_refl eq_refl) as H0.
  pose proof (preview_open_close dev_page w 2 sample_nameless
                eq_refl eq_refl eq_refl) as H2.
  assert (isDocx (file_name sample_row) = Some true) as Hd by reflexivity.
  rewrite Hd in H0. destruct H0 as (w1 & Hstep & Hsel & He & Hclose).
  exists w, w1. split; [vm_compute; reflexivity|].
  split; [exact Hstep|]. split; [exact Hsel|].
  split; [by rewrite He, app_nil_r|]. split; [exact Hclose|].
  split; [vm_compute; reflexivity | exact H2].
Defined.



(** The closure of an upload goes from the awaited promise to the pending
    timeout, unchanged, as long as the upload lasts. *)
Lemma closure_run l evs : ∀ w w' u,
  in_phase w Sending → awaiting w = Some u →
  run_uploading l w evs = Some w' →
  awaiting w' = Some u ∨ timeout w' = Some u.
Proof.
  induction evs as [|ev evs IH]; intros w w' u Hp Ha H; simpl in H.
  - injection H as <-. by left.
  - apply bind_Some in H as (w1 & H1 & H).
    destruct (isUploading (state w1)) eqn:Hu1; [|discriminate H].
    destruct (phase_transition _ _ _ _ _ Hp H1)
      as [(Hs & _ & Ha1) | [(now & d & -> & Hf) | (? & _ & Hi)]].
    + eapply IH; eauto. congruence.
    + right. destruct (finishing_run _ _ _ _ Hf H) as [_ ->].
      unfold step in H1. rewrite Ha in H1. by injection H1 as <-.
    + apply idle_not_uploading in Hi. congruence.
Qed.

Lemma chosen_file_sending l w0 file w :
  reachable l w0 → step l w0 (ChooseFile (Some file)) = Some w → in_phase w Sending.
Proof.
  intros Hr H. pose proof (reachable_invariant _ _ Hr) as [[p Hp] _ _ _ _ _].
  pose proof (phase_transition _ _ _ _ _ Hp H) as Ht.
  step_inv H. apply widget_shown_idle in Heqb as [_ Hidle].
  destruct p; simpl in Hp; destruct Hp as (Hu & _); try congruence.
  destruct Ht as [Hi | (? & _ & Hs & ?)]; [|done].
  apply idle_not_uploading in Hi. discriminate Hi.
Qed.

(** X12. The listing requested when an upload is over carries the filter
    that was selected when the file was chosen, whatever the filter has become
    while the upload ran. *)
Theorem refresh_uses_filter_at_choice (l : Location) (w0 w w' w'' : World)
    (file : File) (evs : list event) :
  reachable l w0 →
  step l w0 (ChooseFile (Some file)) = Some w →
  run_uploading l w evs = Some w' →
  step l w' TimeoutFired = Some w'' →
  effects w''
  = effects w' ++ [Request (getResults (filter_value (filterType (state w0))));
                   Request getStats].
Proof.
  intros Hr Hc Hrun H.
  pose proof (chosen_file_sending _ _ _ _ Hr Hc) as Hs.
  pose proof (chosen_file_awaited _ _ _ _ Hc) as Ha.
  destruct (closure_run _ _ _ _ _ Hs Ha Hrun) as [Ha' | Ht'].
  - assert (∃ p, in_phase w' p) as [p Hp].
    { clear -Hs Hrun. assert (∃ p, in_phase w p) as Hex by eauto. clear Hs.
      revert w Hex Hrun. induction evs as [|ev evs IH]; intros w Hex Hrun; simpl in Hrun.
      - by injection Hrun as <-.
      - apply bind_Some in Hrun as (w2 & H2 & Hrun).
        destruct (isUploading (state w2)); [|discriminate Hrun].
        eauto using phase_step. }
    apply bind_Some in H as (u & Hu & _).
    destruct p; simpl in Hp; destruct Hp as (_ & _ & Hpa & Hpt & _);
      rewrite ?Hpa, ?Hpt in *; discriminate.
  - unfold step in H. rewrite Ht' in H. injection H as <-.
    unfold upload_finished, fetchStats, fetchResults, emit. simpl.
    by rewrite <- app_assoc.
Qed.

Lemma refresh_uses_filter_at_choice_witness :
  ∃ w w' w'',
    run dev_page (init dev_page) session_choose = Some w
    ∧ run_uploading dev_page w session_refilter = Some w'
    ∧ filterType (state w') = Some "contract"
    ∧ step dev_page w' TimeoutFired = Some w''
    ∧ effects w'' = effects w' ++ [Request (Get "results" ∅); Request (Get "stats" ∅)].
Proof.
  assert (reachable dev_page
            (update (setSelectedDocType "crac")
               (update (setActiveTab "upload") (init dev_page)))) as Hr.
  { eapply (reachable_run dev_page session_upload_tab);
      [apply reachable_init | reflexivity]. }
  eexists _, _, _. split; [vm_compute; reflexivity|]. split; [vm_compute; reflexivity|].
  split; [reflexivity|]. split; [vm_compute; reflexivity|].
  erewrite refresh_uses_filter_at_choice
    with (l := dev_page) (file := sample_file) (evs := session_refilter);
    [ | exact Hr | vm_compute; reflexivity ..].
  reflexivity.
Defined.

(** X13. A failed upload leaves the progress where it stood; with the upload
    tab still shown a file can be chosen again at once, and the new upload
    starts at 10 with its own timer. *)
Theorem retry_after_failure (l : Location) (w w1 : World) (err : Error) (file : File) :
  step l w (UploadRejected err) = Some w1 →
  activeTab (state w) = "upload" →
  uploadProgress (state w1) = uploadProgress (state w)
  ∧ ∃ w2, step l w1 (ChooseFile (Some file)) = Some w2
          ∧ uploadProgress (state w2) = 10
          ∧ isUploading (state w2) = true
          ∧ progressInterval w2 = true
          ∧ awaiting w2 = Some {| up_file := file; up_filter := filterType (state w) |}.
Proof.
  intros H Htab. apply bind_Some in H as (u & Hu & H). injection H as <-.
  split; [reflexivity|]. eexists. split.
  { unfold step, upload_widget_shown. simpl. rewrite Htab. reflexivity. }
  done.
Qed.

Lemma retry_after_failure_witness :
  ∃ w w1 w2,
    run dev_page (init dev_page) session_sending = Some w
    ∧ step dev_page w (UploadRejected sample_error) = Some w1
    ∧ uploadProgress (state w1) = 20
    ∧ step dev_page w1 (ChooseFile (Some sample_file)) = Some w2
    ∧ uploadProgress (state w2) = 10.
Proof.
  eexists _, _, _. split; [vm_compute; reflexivity|].
  match goal with
  | |- step _ ?x _ = _ ∧ _ =>
      edestruct (retry_after_failure dev_page)
        with (w := x) (err := sample_error) (file := sample_file)
        as (_ & w2 & Hstep & H10 & _)
  end.
  { vm_compute; reflexivity. }
  { vm_compute; reflexivity. }
  split; [vm_compute; reflexivity|]. split; [reflexivity|].
  split; [vm_compute; reflexivity|].
  vm_compute in Hstep. injection Hstep as <-. exact H10.
Defined.

(** ** Strings *)

(** [append] on a text that starts with a character, one step. *)
Ltac app_step := cbv [String.append]; fold String.append.

Lemma append_assoc (a b c : string) : (a +:+ b) +:+ c = a +:+ b +:+ c.
Proof. induction a as [|x a IH]; [done|]. app_step. by rewrite IH. Qed.

Lemma length_append (a b : string) :
  String.length (a +:+ b) = (String.length a + String.length b)%nat.
Proof. induction a as [|x a IH]; [done|]. app_step. simpl. by rewrite IH. Qed.

Lemma append_inj_r (a b t : string) : a +:+ t = b +:+ t → a = b.
Proof.
  intros H. assert (String.length a = String.length b) as Hlen.
  { apply (f_equal String.length) in H. rewrite !length_append in H. lia. }
  revert b H Hlen. induction a as [|x a IH]; intros [|y b] H Hlen;
    try discriminate Hlen; [done|].
  revert H. app_step. intros [= -> H]. f_equal. apply IH; [done|].
  simpl in Hlen. lia.
Qed.

Lemma list_ascii_of_append (a b : string) :
  list_ascii_of_string (a +:+ b) = list_ascii_of_string a ++ list_ascii_of_string b.
Proof. induction a as [|x a IH]; [done|]. app_step. simpl. by rewrite IH. Qed.

(** Two texts that end in different characters are different. *)
Lemma append_last_ne (a b s t : string) (c d : ascii) :
  c ≠ d → a +:+ s +:+ String c "" ≠ b +:+ t +:+ String d "".
Proof.
  intros Hne H. apply (f_equal list_ascii_of_string) in H.
  rewrite <- !append_assoc, !(list_ascii_of_append _ (String _ "")) in H.
  apply (f_equal last) in H. simpl in H. rewrite !last_snoc in H. congruence.
Qed.

Lemma prefix_append (t s : string) : String.prefix t (t +:+ s) = true.
Proof.
  induction t as [|x t IH]; [by destruct s|]. app_step. simpl.
  destruct (ascii_dec x x); [exact IH | done].
Qed.

Lemma prefix_append_r (t s b : string) :
  String.prefix t s = true → String.prefix t (s +:+ b) = true.
Proof.
  revert s. induction t as [|x t IH]; intros s H; [by destruct (s +:+ b)|].
  destruct s as [|y s]; [discriminate H|]. app_step. simpl in *.
  destruct (ascii_dec x y); [by apply IH | done].
Qed.

Lemma includes_skip (a s t : string) :
  includes s t = true → includes (a +:+ s) t = true.
Proof.
  intros H. induction a as [|x a IH]; [done|].
  app_step. cbn [includes]. rewrite IH. apply orb_true_r.
Qed.

Lemma includes_append_r (s t b : string) :
  includes s t = true → includes (s +:+ b) t = true.
Proof.
  induction s as [|x s IH]; intros H.
  - cbn [includes] in H. rewrite orb_false_r in H.
    destruct t; [|discriminate H]. by destruct b.
  - cbn [includes] in H. apply orb_true_iff in H as [H|H].
    + apply (prefix_append_r _ _ b) in H. revert H. app_step. cbn [includes].
      by intros ->.
    + app_step. cbn [includes]. rewrite IH by done. apply orb_true_r.
Qed.

Lemma includes_inside (a s b t : string) :
  includes s t = true → includes (a +:+ s +:+ b) t = true.
Proof. intros H. by apply includes_skip, includes_append_r. Qed.

Lemma includes_here (t b : string) : includes (t +:+ b) t = true.
Proof. destruct (t +:+ b) eqn:E; cbn [includes]; rewrite <- E, prefix_append; done. Qed.

(** ** The addresses of a Result *)

(** X14. The preview and the download address of a Result lie under
    [API_BASE_URL/results/]; each determines the id as it prints, as does the
    url of [deleteResult]; and no preview address is a download address. *)
Theorem result_urls (l : Location) (a b : value) :
  (getPreviewUrl l a = getPreviewUrl l b → ToString a = ToString b)
  ∧ (getDownloadUrl l a = getDownloadUrl l b → ToString a = ToString b)
  ∧ (deleteResult a = deleteResult b → ToString a = ToString b)
  ∧ getPreviewUrl l a ≠ getDownloadUrl l b
  ∧ String.prefix (API_BASE_URL l +:+ "/results/") (getPreviewUrl l a) = true
  ∧ String.prefix (API_BASE_URL l +:+ "/results/") (getDownloadUrl l a) = true.
Proof.
  unfold getPreviewUrl, getDownloadUrl, deleteResult.
  split; [|split; [|split; [|split; [|split]]]].
  - intros H. apply String.app_inj, String.app_inj in H. by apply append_inj_r in H.
  - intros H. apply String.app_inj, String.app_inj in H. by apply append_inj_r in H.
  - intros [= H]. apply String.app_inj in H. exact H.
  - intros H. apply String.app_inj, String.app_inj in H. revert H.
    change "/preview" with ("/previe" +:+ String "w" "").
    change "/docx/download" with ("/docx/downloa" +:+ String "d" "").
    by apply append_last_ne.
  - rewrite <- append_assoc. apply prefix_append.
  - rewrite <- append_assoc. apply prefix_append.
Qed.

Lemma result_urls_witness :
  getPreviewUrl dev_page (Num 9) = "http://localhost:8003/api/results/9/preview"
  ∧ getDownloadUrl dev_page (Num 9) = "http://localhost:8003/api/results/9/docx/download"
  ∧ ToString (Num 9) = ToString (Str "9").
Proof.
  split; [vm_compute; reflexivity|]. split; [vm_compute; reflexivity|].
  apply (result_urls dev_page (Num 9) (Str "9")). vm_compute; reflexivity.
Defined.

(** ** The colours of the log *)

Lemma success_line_green now file data :
  log_style_of (success_line now file data) = Green.
Proof.
  unfold log_style_of, success_line.
  change ("] SUCCESS: " +:+ name file +:+ " processed in "
          +:+ ToString (get "processing_time_seconds" data) +:+ "s")
    with ("] " +:+ "SUCCESS" +:+ ": " +:+ name file +:+ " processed in "
          +:+ ToString (get "processing_time_seconds" data) +:+ "s").
  rewrite includes_skip; [done|]. do 2 apply includes_skip. apply includes_here.
Qed.

Lemma process_line_includes now log :
  includes (process_line now log) "PROCESS" = true.
Proof.
  unfold process_line.
  change ("] PROCESS: "
          +:+ ToString (JS.or (get "current_file" log) (Str "Processing..."))
          +:+ " (" +:+ ToString (get "progress_pct" log) +:+ "%)")
    with ("] " +:+ "PROCESS" +:+ ": "
          +:+ ToString (JS.or (get "current_file" log) (Str "Processing..."))
          +:+ " (" +:+ ToString (get "progress_pct" log) +:+ "%)").
  do 3 apply includes_skip. apply includes_here.
Qed.

Lemma system_line_includes now : includes (system_line now) "SYSTEM" = true.
Proof.
  unfold system_line.
  change ("] SYSTEM: Neural Connection Established")
    with ("] " +:+ "SYSTEM" +:+ ": Neural Connection Established").
  do 3 apply includes_skip. apply includes_here.
Qed.

Lemma process_line_style now log :
  log_style_of (process_line now log)
  = if includes (process_line now log) "SUCCESS" then Green else Saffron.
Proof. unfold log_style_of. by rewrite process_line_includes. Qed.

Lemma system_line_style now : log_style_of (system_line now) ≠ Gray.
Proof.
  unfold log_style_of. rewrite system_line_includes.
  by repeat destruct (includes _ _).
Qed.

Lemma logs_coloured l w :
  reachable l w → Forall (λ line, log_style_of line ≠ Gray) (ocrLogs (state w)).
Proof.
  induction 1 as [|w ev w' Hr IH H]; [constructor|].
  destruct ev; step_inv H; try exact IH.
  - unfold change_filter. case_decide; exact IH.
  - destruct file; exact IH.
  - constructor; [|exact IH]. by rewrite success_line_green.
  - cbn [state update ocrLogs setOcrLogs]. unfold onmessage.
    destruct (is_string "batch_update" (get "type" log)).
    { apply Forall_take. constructor; [|exact IH].
      rewrite process_line_style. by destruct (includes _ _). }
    destruct (is_string "connected" (get "type" log)); [|exact IH].
    constructor; [apply system_line_style | exact IH].
Qed.

(** X15. Every line of the log is shown in one of the three colours, never
    in gray. A SUCCESS line is green; a PROCESS line is saffron unless it
    contains 'SUCCESS', which is looked for first: a progress line about a
    file whose name contains 'SUCCESS' is shown green. *)
Theorem log_colours (l : Location) (w : World) :
  reachable l w →
  Forall (λ line, log_style_of line ≠ Gray) (ocrLogs (state w))
  ∧ (∀ now file data, log_style_of (success_line now file data) = Green)
  ∧ (∀ now log,
       log_style_of (process_line now log)
       = if includes (process_line now log) "SUCCESS" then Green else Saffron)
  ∧ (∀ now log f,
       log !! "current_file" = Some (Str f) → includes f "SUCCESS" = true →
       log_style_of (process_line now log) = Green).
Proof.
  intros Hr. split; [by eapply logs_coloured|]. split; [apply success_line_green|].
  split; [apply process_line_style|].
  intros now log f Hf Hinc. rewrite process_line_style.
  assert (f ≠ "") as Hne by (intros ->; discriminate Hinc).
  unfold process_line. rewrite (or_string _ f) by done. cbn [ToString].
  rewrite <- (append_assoc "[" now), <- (append_assoc _ "] PROCESS: ").
  by rewrite includes_inside.
Qed.

Lemma log_colours_witness :
  ∃ w, run dev_page (init dev_page)
         [Message "10:15:00" {[ "type" := Str "batch_update";
                                "current_file" := Str "SUCCESS_stories.pdf";
                                "progress_pct" := Num 40 ]}] = Some w
       ∧ ocrLogs (state w) = ["[10:15:00] PROCESS: SUCCESS_stories.pdf (40%)"]
       ∧ log_style_of (process_line "10:15:00"
                         {[ "type" := Str "batch_update";
                            "current_file" := Str "SUCCESS_stories.pdf";
                            "progress_pct" := Num 40 ]}) = Green
       ∧ Forall (λ line, log_style_of line ≠ Gray) (ocrLogs (state w)).
Proof.
  edestruct (log_colours dev_page) as (Hall & _ & _ & Hgreen).
  { eapply (reachable_run dev_page
              [Message "10:15:00" {[ "type" := Str "batch_update";
                                     "current_file" := Str "SUCCESS_stories.pdf";
                                     "progress_pct" := Num 40 ]}]);
      [apply reachable_init | vm_compute; reflexivity]. }
  eexists. split; [vm_compute; reflexivity|]. split; [reflexivity|].
  split; [|exact Hall].
  apply (Hgreen _ _ "SUCCESS_stories.pdf"); vm_compute; reflexivity.
Defined.

(** ** PreviewModal *)

Lemma toLowerCase_append (a b : string) :
  toLowerCase (a +:+ b) = toLowerCase a +:+ toLowerCase b.
Proof. induction a as [|x a IH]; [done|]. app_step. simpl. app_step. by rewrite IH. Qed.

Lemma endsWith_append (a t : string) : endsWith (a +:+ t) t = true.
Proof.
  induction a as [|x a IH].
  - change ("" +:+ t) with t. destruct t; cbn [endsWith]; by rewrite String.eqb_refl.
  - app_step. cbn [endsWith]. rewrite IH. apply orb_true_r.
Qed.

Lemma endsWith_lower_split (s t : string) :
  endsWith (toLowerCase s) t = true →
  ∃ a e, s = a +:+ e ∧ toLowerCase e = t.
Proof.
  induction s as [|x s IH]; intros H.
  - cbn [toLowerCase endsWith] in H. rewrite orb_false_r in H.
    apply String.eqb_eq in H. by exists "", "".
  - cbn [toLowerCase endsWith] in H. apply orb_true_iff in H as [H|H].
    + apply String.eqb_eq in H. by exists "", (String x s).
    + destruct (IH H) as (a & e & -> & He). by exists (String x a), e.
Qed.

Lemma toLowerCase_length (s : string) :
  String.length (toLowerCase s) = String.length s.
Proof. induction s as [|x s IH]; simpl; [done | by rewrite IH]. Qed.

(** X16. The preview is replaced by the 'unsupported' notice exactly for the
    file names whose last five characters are '.docx' in any mix of cases; a
    Result whose [file_name] is not a string makes the modal throw. *)
Theorem docx_by_extension (file_name : value) :
  (∀ s e, file_name = Str (s +:+ e) → toLowerCase e = ".docx" →
     isDocx file_name = Some true)
  ∧ (isDocx file_name = Some true →
     ∃ s e, file_name = Str (s +:+ e) ∧ toLowerCase e = ".docx"
            ∧ String.length e = 5%nat)
  ∧ (isDocx file_name = None ↔ ∀ s, file_name ≠ Str s).
Proof.
  split; [|split].
  - intros s e -> He. simpl. by rewrite toLowerCase_append, He, endsWith_append.
  - destruct file_name as [| |b|x|s]; try discriminate. intros [= H].
    destruct (endsWith_lower_split _ _ H) as (a & e & -> & He).
    exists a, e. split; [done|]. split; [done|].
    by rewrite <- toLowerCase_length, He.
  - destruct file_name as [| |b|x|s]; simpl; split; try done.
    + intros H. by destruct (H s).
Qed.

Lemma docx_by_extension_witness :
  isDocx (Str "Lease.DOCX") = Some true
  ∧ isDocx (Str "invoice_42.pdf") = Some false
  ∧ isDocx Undefined = None.
Proof.
  split; [|split; [reflexivity|]].
  - apply (docx_by_extension (Str "Lease.DOCX")) with (s := "Lease") (e := ".DOCX");
      reflexivity.
  - apply (docx_by_extension Undefined). intros s. discriminate.
Defined.

Lemma field_label_length (key : string) :
  String.length (field_label key) = String.length key.
Proof. induction key as [|c key IH]; simpl; [done | by rewrite IH]. Qed.

Lemma includes_char (c : ascii) (s : string) (x : ascii) :
  includes (String c s) (String x "") = Ascii.eqb x c || includes s (String x "").
Proof.
  cbn [includes String.prefix]. destruct (ascii_dec x c) as [->|Hne].
  - rewrite Ascii.eqb_refl. by destruct s.
  - by apply Ascii.eqb_neq in Hne as ->.
Qed.

(** X17. The label of a structured field is its key with every underscore,
    not only the first, replaced by a space: same length, no underscore left,
    keys without underscore unchanged. *)
Theorem field_label_spec (key : string) :
  String.length (field_label key) = String.length key
  ∧ includes (field_label key) "_" = false
  ∧ (includes key "_" = false → field_label key = key)
  ∧ (∀ a b, field_label (a +:+ "_" +:+ b) = field_label a +:+ " " +:+ field_label b).
Proof.
  split; [apply field_label_length|]. split; [|split].
  - induction key as [|c key IH]; [done|].
    cbn [field_label]. rewrite includes_char, IH.
    destruct (Ascii.eqb_spec c "_") as [->|Hne]; [done|].
    rewrite orb_false_r. by apply Ascii.eqb_neq.
  - induction key as [|c key IH]; [done|].
    rewrite includes_char. intros H. apply orb_false_iff in H as [Hc Hk].
    cbn [field_label]. rewrite IH by done.
    rewrite Ascii.eqb_sym in Hc. by rewrite Hc.
  - intros a b. induction a as [|c a IH]; [done|].
    change (String c a +:+ "_" +:+ b) with (String c (a +:+ "_" +:+ b)).
    cbn [field_label]. rewrite IH. reflexivity.
Qed.

Lemma field_label_spec_witness :
  field_label "total_amount_due" = "total amount due"
  ∧ field_label "parties" = "parties".
Proof.
  split; [reflexivity|].
  apply (field_label_spec "parties"). reflexivity.
Defined.

(** ** The progress ring *)

Lemma progress_in_steps l w : reachable l w → uploadProgress (state w) ∈ progress_steps.
Proof.
  intros Hr. destruct (progress_multiple_of_5 _ _ Hr) as [k Hk].
  pose proof (reachable_invariant _ _ Hr) as [[p Hp] _ _ _ _ _].
  apply phase_bounds in Hp. unfold progress_steps.
  apply list_elem_of_fmap. exists k. split; [lia|].
  apply elem_of_seqZ. lia.
Qed.

Lemma offset_in_range_steps : forallb offset_in_range progress_steps = true.
Proof. vm_compute. reflexivity. Qed.

Lemma offset_antitone_steps :
  forallb (λ p, forallb (offset_antitone p) progress_steps) progress_steps = true.
Proof. vm_compute. reflexivity. Qed.

Lemma reachable_run_uploading l evs : ∀ w w',
  reachable l w → run_uploading l w evs = Some w' → reachable l w'.
Proof.
  induction evs as [|ev evs IH]; intros w w' Hw H; simpl in H.
  - by injection H as <-.
  - apply bind_Some in H as (w1 & H1 & H).
    destruct (isUploading (state w1)); [|discriminate H].
    eauto using reachable_step.
Qed.

(** X18. The dash offset of the progress ring stays between 0 and 283, is 0
    exactly at 100 percent, and never grows while an upload lasts. *)
Theorem ring_offset (l : Location) (w : World) :
  reachable l w →
  PrimFloat.leb 0 (strokeDashoffset (uploadProgress (state w))) = true
  ∧ PrimFloat.leb (strokeDashoffset (uploadProgress (state w))) 283 = true
  ∧ (PrimFloat.eqb (strokeDashoffset (uploadProgress (state w))) 0 = true
     ↔ uploadProgress (state w) = 100)
  ∧ (∀ evs w', isUploading (state w) = true → run_uploading l w evs = Some w' →
       PrimFloat.leb (strokeDashoffset (uploadProgress (state w')))
                     (strokeDashoffset (uploadProgress (state w))) = true).
Proof.
  intros Hr. pose proof (progress_in_steps _ _ Hr) as Hin.
  pose proof offset_in_range_steps as Hrange.
  rewrite forallb_forall in Hrange.
  pose proof (Hrange _ (proj1 (list_elem_of_In _ _) Hin)) as Hok.
  unfold offset_in_range in Hok.
  apply andb_true_iff in Hok as [Hok Hzero]. apply andb_true_iff in Hok as [Hlo Hhi].
  split; [exact Hlo|]. split; [exact Hhi|]. split.
  - apply eqb_prop in Hzero. rewrite Hzero. apply Z.eqb_eq.
  - intros evs w' Hu Hrun.
    pose proof (reachable_invariant _ _ Hr) as [Hp _ _ _ _ _].
    pose proof (uploading_run_monotone _ _ _ _ Hp Hu Hrun) as Hle.
    pose proof (progress_in_steps _ _ (reachable_run_uploading _ _ _ _ Hr Hrun)) as Hin'.
    pose proof offset_antitone_steps as Hanti.
    rewrite forallb_forall in Hanti.
    pose proof (Hanti _ (proj1 (list_elem_of_In _ _) Hin)) as Hrow.
    rewrite forallb_forall in Hrow.
    pose proof (Hrow _ (proj1 (list_elem_of_In _ _) Hin')) as Hpq.
    unfold offset_antitone in Hpq.
    apply Z.leb_le in Hle. by rewrite Hle in Hpq.
Qed.

Lemma ring_offset_witness :
  ∃ w, run dev_page (init dev_page) session_sending = Some w
       ∧ Number_toString (strokeDashoffset (uploadProgress (state w))) = "226.4"
       ∧ PrimFloat.leb 0 (strokeDashoffset (uploadProgress (state w))) = true
       ∧ PrimFloat.leb (strokeDashoffset (uploadProgress (state w))) 283 = true.
Proof.
  edestruct (ring_offset dev_page) as (Hlo & Hhi & _).
  { eapply (reachable_run dev_page session_sending);
      [apply reachable_init | vm_compute; reflexivity]. }
  eexists. split; [vm_compute; reflexivity|]. split; [vm_compute; reflexivity|].
  split; [exact Hlo | exact Hhi].
Defined.

End PageFacts.
